(** * pdf_chat_api: a shallow embedding of the PDF question-answering service

    The development follows [pdf_chat_api.py] top to bottom: module
    initialisation (environment, credential check, application object), the
    three pipeline helpers [get_pdf_text], [get_text_chunks] and
    [get_vector_store], the prompt chain, and the two routes [read_root] and
    [ask_question].

    Python values are embedded as follows.
    - [str] is [string]; one [ascii] stands for one character, so [len],
      slicing and [strip] count characters.
    - [int] is [Z].
    - A call that may raise returns a [result]; code that also touches the
      persisted index threads the disk through a state-and-error monad [M].
    - [os.environ] and the directory tree used by the vector store are finite
      maps ([gmap]).
    - The remote and numeric services behind the imports (PDF parsing, the
      embedding model, the generative model, the low-level write and the
      nearest-neighbour search of the vector store) are collected in the class
      [Collaborators]; every definition and theorem is stated for an arbitrary
      instance of it, and each of these calls may raise.
    - Three pieces of library behaviour decide what the service does and are
      embedded as definitions, each under its own heading: the text splitter
      [RecursiveCharacterTextSplitter.split_text], the store wrapper [Chroma]
      (constructor, [from_texts], [similarity_search]), and the web
      framework's binding of required form parameters. They are written from
      the algorithms of those libraries, which are not part of this
      repository's sources. *)

From Stdlib Require Import String Ascii List ZArith QArith Lia Bool.
From stdpp Require Import base option list gmap strings.

Set Warnings "-register-all,-abstract-large-number".
Local Open Scope Z_scope.
Local Open Scope string_scope.
Local Open Scope list_scope.

(** ** Exceptions and results *)

(** An instance of Python's [Exception]: its class name and [str(e)]. *)
Record Exception : Type := mkException { exc_class : string; exc_str : string }.

Definition str (e : Exception) : string := exc_str e.

Definition ValueError (msg : string) : Exception := mkException "ValueError" msg.
Definition IndexError (msg : string) : Exception := mkException "IndexError" msg.
(** [str(KeyError(k))] is the [repr] of the key. *)
Definition KeyError (key : string) : Exception :=
  mkException "KeyError" ("'" +:+ key +:+ "'").
(** [raise Exception(msg)] *)
Definition Exception_ (msg : string) : Exception := mkException "Exception" msg.

Inductive result (A : Type) : Type :=
| Ok (a : A)
| Raise (e : Exception).
Arguments Ok {A} a.
Arguments Raise {A} e.

Definition rbind {A B} (r : result A) (k : A -> result B) : result B :=
  match r with
  | Ok a => k a
  | Raise e => Raise e
  end.

#[global] Instance result_bind : MBind result := fun _ _ k r => rbind r k.
#[global] Instance result_ret : MRet result := fun _ a => Ok a.

(** [for x in xs: acc = f(acc, x)], stopping at the first exception. *)
Fixpoint for_each {A S} (f : S -> A -> result S) (xs : list A) (acc : S) : result S :=
  match xs with
  | [] => Ok acc
  | x :: xs' => rbind (f acc x) (for_each f xs')
  end.

(** ** JSON bodies and HTTP responses *)

Inductive json : Type :=
| JString (s : string)
| JList (items : list json)
| JDict (fields : list (string * json)).

Record Response : Type := mkResponse { status_code : Z; content : json }.

Definition has_field (k : string) (j : json) : bool :=
  match j with
  | JDict fields => existsb (fun kv => String.eqb (fst kv) k) fields
  | _ => false
  end.

(** What a path operation function does: return a value (a dict, sent as
    JSON) or raise [HTTPException(status_code, detail)]. *)
Inductive outcome : Type :=
| Return (value : json)
| RaiseHTTPException (status : Z) (detail : string).

(** The framework's rendering of an outcome: a returned value is sent with
    the route's default status 200, an [HTTPException] with its own status and
    the body [{"detail": detail}]. *)
Definition render (o : outcome) : Response :=
  match o with
  | Return value => mkResponse 200 value
  | RaiseHTTPException status detail =>
      mkResponse status (JDict [("detail", JString detail)])
  end.

(** ** The third-party collaborators *)

Record ChatGoogleGenerativeAI : Type := mkChatModel {
  model : string;
  temperature : Q;
  google_api_key : string
}.

Record PromptTemplate : Type := mkPromptTemplate {
  template : string;
  input_variables : list string
}.

(** A retrieved document; only its text is ever stored (no metadata). *)
Record Document : Type := mkDocument { page_content : string }.

Class Collaborators : Type := {
  (** an uploaded file, a page of a parsed PDF, an embedding vector *)
  UploadFile : Type;
  PageObject : Type;
  vector : Type;
  (** [genai.configure(api_key=...)] *)
  genai_configure : string -> result unit;
  (** [HuggingFaceEmbeddings(model_name=...)]: loading the model *)
  HuggingFaceEmbeddings : string -> result unit;
  (** [PdfReader(pdf.file).pages] *)
  PdfReader : UploadFile -> result (list PageObject);
  (** [page.extract_text()] *)
  extract_text : PageObject -> result string;
  (** the embedding of one text by [embed_model] *)
  embed : string -> result vector;
  (** writing a batch of records into a collection that already holds
      [stored]: the write itself may fail (I/O, rejected batch) *)
  chroma_write : list (string * vector) -> list (string * vector) -> result unit;
  (** the largest batch the store's client accepts, if it declares one *)
  max_batch_size : option positive;
  (** the nearest-neighbour query of the index: positions, among the stored
      vectors, of at most [k] neighbours of the query vector *)
  chroma_query : list vector -> vector -> nat -> result (list nat);
  (** [load_qa_chain(model, chain_type, prompt)] and the call of the chain on
      [{"input_documents": docs, "question": q}], returning its output dict *)
  Chain : Type;
  load_qa_chain : ChatGoogleGenerativeAI -> string -> PromptTemplate -> result Chain;
  call_chain : Chain -> list Document -> string -> result (list (string * string))
}.

(** ** Module initialisation (lines 16-40) *)

(** [load_dotenv()]: variables of the [.env] file are added to the process
    environment; a variable already set keeps its value. *)
Definition load_dotenv (dotenv os_environ : gmap string string) : gmap string string :=
  os_environ ∪ dotenv.

Definition os_getenv (environ : gmap string string) (name : string) : option string :=
  environ !! name.

(** Python's [not v] for [v : Optional[str]]: [None] and [""] are falsy. *)
Definition py_not (v : option string) : bool :=
  match v with
  | None => true
  | Some s => String.eqb s ""
  end.

Record FastAPI : Type := mkFastAPI {
  title : string;
  description : string;
  version : string;
  routes : list (string * string)
}.

(** The routes registered by the two decorators [@app.get("/")] and
    [@app.post("/ask_question/")]. *)
Definition app : FastAPI :=
  mkFastAPI " CHATBOT SYSTEM"
    (" A system that allows users to upload PDF documents and interact with them. "
     +:+ "The system is capable of ingesting and interpreting uploaded documents to provide accurate, fact-based responses quickly and reliably")
    "1.0.0"
    [("GET", "/"); ("POST", "/ask_question/")].

Section Startup.
Context `{Collaborators}.

(** Lines 22-40 and the route decorators: everything the module does once
    the credential check of lines 18-20 has passed. *)
Definition after_credential_check (GOOGLE_API_KEY : string) : result FastAPI :=
  _ ← match genai_configure GOOGLE_API_KEY with
      | Ok tt => Ok tt
      | Raise e => Raise (Exception_ ("Error configuring Google API: " +:+ str e))
      end;
  _ ← HuggingFaceEmbeddings "BAAI/bge-small-en";
  Ok app.

(** Importing the module in the process environment [os_environ], with
    [dotenv] the content of the [.env] file. *)
Definition module_init (dotenv os_environ : gmap string string) : result FastAPI :=
  let environ := load_dotenv dotenv os_environ in
  let GOOGLE_API_KEY := os_getenv environ "GOOGLE_API_KEY" in
  if py_not GOOGLE_API_KEY then
    Raise (ValueError "GOOGLE_API_KEY not found in environment variables")
  else
    after_credential_check (default "" GOOGLE_API_KEY).

(** The endpoints a client can reach: those of the application object, if
    the import produced one. *)
Definition reachable_endpoints (started : result FastAPI) : list (string * string) :=
  match started with
  | Ok a => routes a
  | Raise _ => []
  end.
End Startup.

(** ** [GET /] *)

Definition read_root : outcome :=
  Return (JDict [("message", JString "Welcome to the Ask Docs API!")]).

(** ** Text extraction (lines 46-52) *)

Section Extractor.
Context `{Collaborators}.

(** The inner loop: [for page in pdf_reader.pages: text += page.extract_text()]. *)
Definition add_page (text : string) (page : PageObject) : result string :=
  t ← extract_text page;
  Ok (text +:+ t).

(** The outer loop body: open the reader, then run the inner loop. *)
Definition add_pdf (text : string) (pdf : UploadFile) : result string :=
  pages ← PdfReader pdf;
  for_each add_page pages text.

Definition get_pdf_text (pdf_docs : list UploadFile) : result string :=
  for_each add_pdf pdf_docs "".
End Extractor.

(** ** The text splitter behind [get_text_chunks] (lines 55-57)

    [get_text_chunks] builds a [RecursiveCharacterTextSplitter] with
    [chunk_size=10000] and [chunk_overlap=1000] and calls its [split_text].
    That class belongs to the langchain package, not to this repository; what
    follows embeds its algorithm with the defaults the call leaves in place:
    separators ["\n\n"; "\n"; " "; ""], [keep_separator=True], [len] as length
    function, [strip_whitespace=True], separators matched literally. *)

Definition len (s : string) : Z := Z.of_nat (String.length s).

(** [str.isspace] on one character of the 8-bit range. *)
Definition isspace (c : ascii) : bool :=
  let n := N_of_ascii c in
  ((9 <=? n) && (n <=? 13) || (28 <=? n) && (n <=? 32) || (n =? 133) || (n =? 160))%N.

Fixpoint lstrip (s : string) : string :=
  match s with
  | EmptyString => EmptyString
  | String c rest => if isspace c then lstrip rest else s
  end.

Fixpoint rstrip (s : string) : string :=
  match s with
  | EmptyString => EmptyString
  | String c rest =>
      match rstrip rest with
      | EmptyString => if isspace c then EmptyString else String c EmptyString
      | kept => String c kept
      end
  end.

(** [text.strip()] *)
Definition strip (s : string) : string := rstrip (lstrip s).

(** [re.search(re.escape(sep), text)]: does [sep] occur in [text]? *)
Fixpoint contains (sep text : string) : bool :=
  String.prefix sep text ||
  match text with
  | EmptyString => false
  | String _ rest => contains sep rest
  end.

(** The pieces of [text] between the successive, non-overlapping, leftmost
    occurrences of a non-empty [sep]; [skip] counts the characters of a
    matched separator still to pass over. The result is never empty: its head
    is the piece in progress. *)
Fixpoint re_split (sep : string) (skip : nat) (text : string) : list string :=
  match text with
  | EmptyString => [EmptyString]
  | String c rest =>
      match skip with
      | S k => re_split sep k rest
      | O =>
          if String.prefix sep text
          then EmptyString :: re_split sep (String.length sep - 1) rest
          else match re_split sep 0 rest with
               | piece :: pieces => String c piece :: pieces
               | [] => [String c EmptyString]
               end
      end
  end.

(** [_split_text_with_regex(text, separator, keep_separator=True)]: with a
    separator, every piece but the first starts with the separator that
    preceded it; with the empty separator the text is cut into characters;
    empty pieces are dropped. *)
Definition split_text_with_regex (text separator : string) : list string :=
  let splits :=
    if String.eqb separator "" then
      map (fun c => String c EmptyString) (list_ascii_of_string text)
    else
      match re_split separator 0 text with
      | [] => []
      | first :: others => first :: map (String.append separator) others
      end in
  List.filter (fun s => negb (String.eqb s "")) splits.

Record RecursiveCharacterTextSplitter : Type := mkSplitter {
  chunk_size : Z;
  chunk_overlap : Z;
  separators : list string
}.

Definition default_separators : list string :=
  [String "010" (String "010" ""); String "010" ""; " "; ""].

Definition nonempty {A} (l : list A) : bool :=
  match l with [] => false | _ => true end.

Definition more_than_one {A} (l : list A) : bool :=
  match l with _ :: _ :: _ => true | _ => false end.

Section Splitter.
Variable self : RecursiveCharacterTextSplitter.

(** [_join_docs]: join, strip, and drop the result if nothing is left. *)
Definition join_docs (docs : list string) (separator : string) : option string :=
  let text := strip (String.concat separator docs) in
  if String.eqb text "" then None else Some text.

Definition append_doc (docs : list string) (doc : option string) : list string :=
  match doc with
  | Some d => docs ++ [d]
  | None => docs
  end.

(** The [while] loop of [_merge_splits]: pop pieces off the front of
    [current_doc] while the kept part is longer than the overlap, or still
    too long to take the next piece of length [_len]. Indexing an empty
    [current_doc] raises, as [current_doc[0]] does. *)
Fixpoint pop_front (separator_len _len : Z) (current_doc : list string) (total : Z)
  : result (list string * Z) :=
  if (total >? chunk_overlap self)%Z
     || ((total + _len + (if nonempty current_doc then separator_len else 0)
            >? chunk_size self)%Z
         && (total >? 0)%Z)
  then
    match current_doc with
    | [] => Raise (IndexError "list index out of range")
    | first :: rest =>
        pop_front separator_len _len rest
          (total - (len first + (if nonempty rest then separator_len else 0)))
    end
  else Ok (current_doc, total).

(** One iteration of the [for d in splits] loop of [_merge_splits] on the
    state [(docs, current_doc, total)]. *)
Definition merge_step (separator : string) (st : list string * list string * Z)
  (d : string) : result (list string * list string * Z) :=
  let '(docs, current_doc, total) := st in
  let separator_len := len separator in
  let _len := len d in
  '(docs, current_doc, total) ←
    (if (total + _len + (if nonempty current_doc then separator_len else 0)
           >? chunk_size self)%Z
     then
       if nonempty current_doc then
         let docs := append_doc docs (join_docs current_doc separator) in
         '(current_doc, total) ← pop_front separator_len _len current_doc total;
         Ok (docs, current_doc, total)
       else Ok (docs, current_doc, total)
     else Ok (docs, current_doc, total));
  let current_doc := current_doc ++ [d] in
  Ok (docs, current_doc,
      total + _len + (if more_than_one current_doc then separator_len else 0)).

(** [_merge_splits(splits, separator)] *)
Definition merge_splits (splits : list string) (separator : string)
  : result (list string) :=
  '(docs, current_doc, _) ← for_each (merge_step separator) splits ([], [], 0);
  Ok (append_doc docs (join_docs current_doc separator)).

Definition extend_merged (final_chunks _good_splits : list string)
  : result (list string) :=
  if nonempty _good_splits then
    merged_text ← merge_splits _good_splits "";
    Ok (final_chunks ++ merged_text)
  else Ok final_chunks.

(** The body of [_split_text] once [separator] is chosen; [recurse] is the
    call on the remaining separators, absent when none remain. *)
Definition split_pieces (recurse : option (string -> result (list string)))
  (separator text : string) : result (list string) :=
  let splits := split_text_with_regex text separator in
  '(final_chunks, _good_splits) ←
    for_each (fun '(final_chunks, _good_splits) s =>
      if (len s <? chunk_size self)%Z then Ok (final_chunks, _good_splits ++ [s])
      else
        final_chunks ← extend_merged final_chunks _good_splits;
        match recurse with
        | None => Ok (final_chunks ++ [s], [])
        | Some split_rest =>
            other_info ← split_rest s;
            Ok (final_chunks ++ other_info, [])
        end) splits ([], []);
  extend_merged final_chunks _good_splits.

(** [_split_text(text, separators)]: the first separator that is empty or
    occurs in the text is used; if none does, the last one of the list. *)
Fixpoint split_text_rec (seps : list string) (last_separator : string) (text : string)
  : result (list string) :=
  match seps with
  | [] => split_pieces None last_separator text
  | _s :: new_separators =>
      if String.eqb _s "" then split_pieces None "" text
      else if contains _s text then
        split_pieces
          (if nonempty new_separators
           then Some (split_text_rec new_separators last_separator)
           else None)
          _s text
      else split_text_rec new_separators last_separator text
  end.

Definition split_text (text : string) : result (list string) :=
  match separators self with
  | [] => Raise (IndexError "list index out of range")
  | _ => split_text_rec (separators self) (List.last (separators self) "") text
  end.
End Splitter.

Definition get_text_chunks (text : string) : result (list string) :=
  let text_splitter := mkSplitter 10000 1000 default_separators in
  split_text text_splitter text.

(** ** The persisted vector store (lines 60-67, 113-118)

    The disk maps a persist directory to the records of the collection kept
    there, in insertion order. [Chroma] is langchain's wrapper of the chromadb
    package; the definitions below embed what its constructor, [from_texts]
    and [similarity_search] do to that collection. The embedding model, the
    low-level write, the client's batch limit and the nearest-neighbour query
    stay collaborators. *)

Record Chroma : Type := mkChroma { persist_directory : string }.

(** [DEFAULT_K], the number of results of [similarity_search]. *)
Definition DEFAULT_K : nat := 4%nat.

(** [create_batches]: a list no longer than the client's batch limit is one
    batch; a longer one is cut into consecutive slices of that many items
    ([range(0, len, limit)]). *)
Fixpoint slices {A} (size fuel : nat) (l : list A) : list (list A) :=
  match fuel with
  | O => []
  | S fuel' =>
      match l with
      | [] => []
      | _ => take size l :: slices size fuel' (drop size l)
      end
  end.

Definition create_batches {A} (limit : positive) (l : list A) : list (list A) :=
  if (length l <=? Pos.to_nat limit)%nat then [l]
  else slices (Pos.to_nat limit) (length l) l.

(** [response["output_text"]] on the chain's output dict. *)
Fixpoint getitem (d : list (string * string)) (key : string) : result string :=
  match d with
  | [] => Raise (KeyError key)
  | (k, v) :: rest => if String.eqb k key then Ok v else getitem rest key
  end.

(** The request body of [POST /ask_question/]: its multipart parts in order. *)
Inductive part (F : Type) : Type :=
| TextPart (value : string)
| FilePart (file : F).
Arguments TextPart {F} value.
Arguments FilePart {F} file.

Section Service.
Context `{Collaborators}.

Definition record : Type := string * vector.
Definition disk : Type := gmap string (list record).

(** Computations on the disk that may raise; what was written before an
    exception stays written. *)
Definition M (A : Type) : Type := disk -> result A * disk.

Definition M_ret {A} (a : A) : M A := fun d => (Ok a, d).

Definition M_bind {A B} (m : M A) (k : A -> M B) : M B :=
  fun d =>
    match m d with
    | (Ok a, d') => k a d'
    | (Raise e, d') => (Raise e, d')
    end.

(** A call that does not touch the disk. *)
Definition call {A} (r : result A) : M A := fun d => (r, d).

#[local] Instance M_mbind : MBind M := fun _ _ k m => M_bind m k.
#[local] Instance M_mret : MRet M := fun _ a => M_ret a.

Definition collection (d : disk) (directory : string) : list record :=
  default [] (d !! directory).

(** [Chroma(persist_directory=..., embedding_function=embed_model)]: the
    collection at the directory is opened, and created empty if the
    directory holds none. *)
Definition Chroma_open (directory : string) : M Chroma :=
  fun d =>
    match d !! directory with
    | Some _ => (Ok (mkChroma directory), d)
    | None => (Ok (mkChroma directory), <[directory := []]> d)
    end.

(** [embed_model.embed_documents(texts)]: one vector per text. *)
Definition embed_documents (texts : list string) : result (list vector) :=
  for_each (fun vs t => v ← embed t; Ok (vs ++ [v])) texts [].

(** [add_texts]: embed the texts and upsert them under fresh ids, which
    adds them to the records the collection already holds. *)
Definition add_texts (vs : Chroma) (texts : list string) : M unit :=
  fun d =>
    match embed_documents texts with
    | Raise e => (Raise e, d)
    | Ok embeddings =>
        let stored := collection d (persist_directory vs) in
        let batch := zip texts embeddings in
        match chroma_write stored batch with
        | Raise e => (Raise e, d)
        | Ok _ => (Ok tt, <[persist_directory vs := stored ++ batch]> d)
        end
    end.

(** The batches [from_texts] makes of the texts: those of [create_batches]
    when the client declares a batch limit, the whole list otherwise. *)
Definition text_batches (texts : list string) : list (list string) :=
  match max_batch_size with
  | Some limit => create_batches limit texts
  | None => [texts]
  end.

(** [for batch in ...: chroma_collection.add_texts(texts=batch, ...)]: each
    batch is embedded and written before the next one is looked at. *)
Fixpoint add_batches (vs : Chroma) (batches : list (list string)) : M unit :=
  match batches with
  | [] => mret tt
  | batch :: rest =>
      _ ← add_texts vs batch;
      add_batches vs rest
  end.

(** [Chroma.from_texts(texts=..., embedding=embed_model, persist_directory=...)]:
    the store is opened, then the texts are added batch by batch; an
    exception in one batch leaves the batches before it written. *)
Definition Chroma_from_texts (texts : list string) (directory : string) : M Chroma :=
  vs ← Chroma_open directory;
  _ ← add_batches vs (text_batches texts);
  mret vs.

(** [vector_store.persist()]: the disk of this model is the persisted state
    already. *)
Definition persist (vs : Chroma) : M unit := mret tt.

Definition get_vector_store (text_chunks : list string) : M Chroma :=
  vector_store ← Chroma_from_texts text_chunks "chroma_db";
  _ ← persist vector_store;
  mret vector_store.

(** The documents at the positions a query returned; a position outside
    the collection names no record. *)
Definition documents_at (stored : list record) (found : list nat) : list Document :=
  omap (fun i : nat => (fun r : record => mkDocument (fst r)) <$> stored !! i) found.

(** [vector_store.similarity_search(query)]: the texts of the stored records
    the nearest-neighbour query points at. *)
Definition similarity_search (vs : Chroma) (query : string) : M (list Document) :=
  fun d =>
    let stored := collection d (persist_directory vs) in
    call (query_vector ← embed query;
          found ← chroma_query (map snd stored) query_vector DEFAULT_K;
          Ok (documents_at stored found)) d.

(** ** The prompt chain (lines 70-84) *)

Definition prompt_template : string :=
  String "010" "    Answer the question as detailed as possible from the provided context, make sure to provide all the details, if the answer is not in"
  +:+ String "010" "    provided context just say, "
  +:+ String "034" "answer is not available in the context"
  +:+ String "034" ", don't provide the wrong answer"
  +:+ String "010" (String "010" (String "010" "    Context:"))
  +:+ String "010" " {context}?"
  +:+ String "010" (String "010" "    Question: ")
  +:+ String "010" "{question}"
  +:+ String "010" (String "010" "    Answer:")
  +:+ String "010" "    ".

Definition get_conversational_chain (GOOGLE_API_KEY : string) : result Chain :=
  let model := mkChatModel "gemini-pro" (3 # 10) GOOGLE_API_KEY in
  let prompt := mkPromptTemplate prompt_template ["context"; "question"] in
  load_qa_chain model "stuff" prompt.

(** ** [POST /ask_question/] (lines 96-129) *)

(** The body of the [try] block. *)
Definition ask_question_try (GOOGLE_API_KEY user_question : string)
  (pdf_files : list UploadFile) : M json :=
  raw_text ← call (get_pdf_text pdf_files);
  text_chunks ← call (get_text_chunks raw_text);
  _ ← get_vector_store text_chunks;
  vector_store ← Chroma_open "chroma_db";
  docs ← similarity_search vector_store user_question;
  chain ← call (get_conversational_chain GOOGLE_API_KEY);
  response ← call (call_chain chain docs user_question);
  output_text ← call (getitem response "output_text");
  mret (JDict [("answer", JString output_text)]).

(** The path operation function: the [try] block and its
    [except Exception as e] clause. *)
Definition ask_question (GOOGLE_API_KEY user_question : string)
  (pdf_files : list UploadFile) (d : disk) : outcome * disk :=
  match ask_question_try GOOGLE_API_KEY user_question pdf_files d with
  | (Ok value, d') => (Return value, d')
  | (Raise e, d') =>
      (RaiseHTTPException 400 ("Error processing question: " +:+ str e), d')
  end.

(** ** Routing and parameter binding

    Both parameters of [ask_question] are declared required ([Form(...)],
    [File(...)]). The framework binds them from the multipart form before it
    calls the function: [user_question] from the last part of that name,
    which must be a non-empty text part, [pdf_files] from all parts of that
    name, which must be file parts and at least one. *)

Definition parts_named (name : string) (form : list (string * part UploadFile))
  : list (part UploadFile) :=
  map snd (List.filter (fun kv => String.eqb (fst kv) name) form).

Definition bind_user_question (form : list (string * part UploadFile)) : option string :=
  match List.last (map Some (parts_named "user_question" form)) None with
  | Some (TextPart value) => if String.eqb value "" then None else Some value
  | _ => None
  end.

Fixpoint all_files (ps : list (part UploadFile)) : option (list UploadFile) :=
  match ps with
  | [] => Some []
  | FilePart f :: rest => cons f <$> all_files rest
  | TextPart _ :: _ => None
  end.

Definition bind_pdf_files (form : list (string * part UploadFile))
  : option (list UploadFile) :=
  match parts_named "pdf_files" form with
  | [] => None
  | ps => all_files ps
  end.

(** The names of the parameters that could not be bound. *)
Definition validation_errors (form : list (string * part UploadFile)) : list string :=
  match bind_user_question form with Some _ => [] | None => ["user_question"] end
  ++ match bind_pdf_files form with Some _ => [] | None => ["pdf_files"] end.

(** The framework's answer to a request whose parameters do not bind:
    status 422 and one entry per parameter under ["detail"], each locating
    the parameter in the body (the entry's message and type texts are left
    out). The path operation function is not called. *)
Definition HTTP_422_UNPROCESSABLE_ENTITY : Z := 422.

Definition request_validation_response (errors : list string) : Response :=
  mkResponse HTTP_422_UNPROCESSABLE_ENTITY
    (JDict [("detail",
             JList (map (fun name => JDict [("loc", JList [JString "body"; JString name])])
                      errors))]).

(** [POST /ask_question/] with the given multipart form. *)
Definition post_ask_question (GOOGLE_API_KEY : string)
  (form : list (string * part UploadFile)) (d : disk) : Response * disk :=
  match bind_user_question form, bind_pdf_files form with
  | Some user_question, Some pdf_files =>
      let '(o, d') := ask_question GOOGLE_API_KEY user_question pdf_files d in
      (render o, d')
  | _, _ => (request_validation_response (validation_errors form), d)
  end.

(** [GET /] *)
Definition get_root : Response := render read_root.
End Service.

(** ** Concrete instances

    An uploaded file is either unreadable or given by the texts of its pages;
    a vector is a number; the embedding model and the store always answer; the
    nearest-neighbour query returns the first [k] positions; the chain's
    answer to a question is [answer]. *)

Definition sample_with (answer : string -> result (list (string * string)))
  : Collaborators := {|
  UploadFile := option (list string);
  PageObject := string;
  vector := nat;
  genai_configure := fun _ => Ok tt;
  HuggingFaceEmbeddings := fun _ => Ok tt;
  PdfReader := fun f =>
    match f with
    | Some pages => Ok pages
    | None => Raise (mkException "PdfReadError" "EOF marker not found")
    end;
  extract_text := fun page => Ok page;
  embed := fun t => Ok (String.length t);
  chroma_write := fun _ _ => Ok tt;
  max_batch_size := Some 5461%positive;
  chroma_query := fun stored _ k => Ok (seq 0 (Nat.min k (length stored)));
  Chain := unit;
  load_qa_chain := fun _ _ _ => Ok tt;
  call_chain := fun _ _ question => answer question
|}.

(** The chain echoes the question. *)
Definition sample : Collaborators :=
  sample_with (fun question => Ok [("output_text", question)]).

(** The generative model's provider refuses every call. *)
Definition sample_provider_down : Collaborators :=
  sample_with (fun _ => Raise (mkException "ResourceExhausted" "429 quota exceeded")).

(** [genai.configure] rejects the credential. *)
Definition sample_rejected_key : Collaborators := {|
  UploadFile := option (list string);
  PageObject := string;
  vector := nat;
  genai_configure := fun _ => Raise (mkException "ValueError" "invalid api key");
  HuggingFaceEmbeddings := fun _ => Ok tt;
  PdfReader := fun f =>
    match f with
    | Some pages => Ok pages
    | None => Raise (mkException "PdfReadError" "EOF marker not found")
    end;
  extract_text := fun page => Ok page;
  embed := fun t => Ok (String.length t);
  chroma_write := fun _ _ => Ok tt;
  max_batch_size := Some 5461%positive;
  chroma_query := fun stored _ k => Ok (seq 0 (Nat.min k (length stored)));
  Chain := unit;
  load_qa_chain := fun _ _ _ => Ok tt;
  call_chain := fun _ _ question => Ok [("output_text", question)]
|}.

(** Every write to the store fails. *)
Definition sample_disk_full : Collaborators := {|
  UploadFile := option (list string);
  PageObject := string;
  vector := nat;
  genai_configure := fun _ => Ok tt;
  HuggingFaceEmbeddings := fun _ => Ok tt;
  PdfReader := fun f =>
    match f with
    | Some pages => Ok pages
    | None => Raise (mkException "PdfReadError" "EOF marker not found")
    end;
  extract_text := fun page => Ok page;
  embed := fun t => Ok (String.length t);
  chroma_write := fun _ _ => Raise (mkException "OSError" "No space left on device");
  max_batch_size := Some 5461%positive;
  chroma_query := fun stored _ k => Ok (seq 0 (Nat.min k (length stored)));
  Chain := unit;
  load_qa_chain := fun _ _ _ => Ok tt;
  call_chain := fun _ _ question => Ok [("output_text", question)]
|}.

(** The client takes one record at a time, and the disk is full once it
    holds a record. *)
Definition sample_small_batches : Collaborators := {|
  UploadFile := option (list string);
  PageObject := string;
  vector := nat;
  genai_configure := fun _ => Ok tt;
  HuggingFaceEmbeddings := fun _ => Ok tt;
  PdfReader := fun f =>
    match f with
    | Some pages => Ok pages
    | None => Raise (mkException "PdfReadError" "EOF marker not found")
    end;
  extract_text := fun page => Ok page;
  embed := fun t => Ok (String.length t);
  chroma_write := fun stored _ =>
    match stored with
    | [] => Ok tt
    | _ :: _ => Raise (mkException "OSError" "No space left on device")
    end;
  max_batch_size := Some 1%positive;
  chroma_query := fun stored _ k => Ok (seq 0 (Nat.min k (length stored)));
  Chain := unit;
  load_qa_chain := fun _ _ _ => Ok tt;
  call_chain := fun _ _ question => Ok [("output_text", question)]
|}.

(** ** Vocabulary of the statements *)

(** The stages of the request pipeline. *)
Inductive stage : Type := Extraction | Chunking | Indexing | Retrieval | Generation.

(** The concatenation of a list of texts, in order. *)
Definition concat_texts (texts : list string) : string :=
  foldr String.append "" texts.

Section Vocabulary.
Context `{Collaborators}.

(** [page_texts] lists, file by file and page by page, what the files of
    [pdf_docs] yield: every file opens and every page is extracted. *)
Definition extracted_from (pdf_docs : list UploadFile)
  (page_texts : list (list string)) : Prop :=
  Forall2
    (fun pdf texts =>
       exists pages,
         PdfReader pdf = Ok pages /\
         Forall2 (fun page t => extract_text page = Ok t) pages texts)
    pdf_docs page_texts.

(** The chunk texts persisted at the fixed path. *)
Definition indexed_texts (d : disk) : list string :=
  map fst (collection d "chroma_db").

(** The retrieval stage of [ask_question] (lines 113-118): open the store
    at the fixed path and search it for the question. *)
Definition retrieval (user_question : string) : M (list Document) :=
  M_bind (Chroma_open "chroma_db")
    (fun vector_store => similarity_search vector_store user_question).

(** The generation stage (lines 120-127): build the chain, call it on the
    retrieved documents and the question, and wrap its output text. *)
Definition generation (GOOGLE_API_KEY : string) (docs : list Document)
  (user_question : string) : result json :=
  chain ← get_conversational_chain GOOGLE_API_KEY;
  response ← call_chain chain docs user_question;
  output_text ← getitem response "output_text";
  Ok (JDict [("answer", JString output_text)]).

(** The exception [e] is raised at stage [s] of the request, the earlier
    stages having completed. *)
Definition raises_at (s : stage) (GOOGLE_API_KEY user_question : string)
  (pdf_files : list UploadFile) (d : disk) (e : Exception) : Prop :=
  match s with
  | Extraction => get_pdf_text pdf_files = Raise e
  | Chunking =>
      exists raw_text,
        get_pdf_text pdf_files = Ok raw_text
        /\ get_text_chunks raw_text = Raise e
  | Indexing =>
      exists raw_text text_chunks,
        get_pdf_text pdf_files = Ok raw_text
        /\ get_text_chunks raw_text = Ok text_chunks
        /\ fst (get_vector_store text_chunks d) = Raise e
  | Retrieval =>
      exists raw_text text_chunks vs d1,
        get_pdf_text pdf_files = Ok raw_text
        /\ get_text_chunks raw_text = Ok text_chunks
        /\ get_vector_store text_chunks d = (Ok vs, d1)
        /\ fst (retrieval user_question d1) = Raise e
  | Generation =>
      exists raw_text text_chunks vs d1 docs d2,
        get_pdf_text pdf_files = Ok raw_text
        /\ get_text_chunks raw_text = Ok text_chunks
        /\ get_vector_store text_chunks d = (Ok vs, d1)
        /\ retrieval user_question d1 = (Ok docs, d2)
        /\ generation GOOGLE_API_KEY docs user_question = Raise e
  end.
End Vocabulary.

(** A text with at least one character. *)
Definition has_text (t : string) : bool := negb (String.eqb t "").

(** ** Vocabulary of the chunker statements *)



(** The one-character string the splitter makes of a character. *)
Definition single (c : ascii) : string := String c EmptyString.





(** The total length of a list of pieces. *)
Definition sum_len (pieces : list string) : Z :=
  foldr (fun s acc => len s + acc) 0 pieces.

(** A chunk is not empty and has at most [limit] characters. *)
Definition within (limit : Z) (chunk : string) : Prop := 0 < len chunk <= limit.

(** The state of the merge loop is sound when [total] is the length of
    [current_doc], that length fits a chunk, and so does every chunk produced
    so far. *)
Definition merge_state_ok (self : RecursiveCharacterTextSplitter)
  (st : list string * list string * Z) : Prop :=
  let '(docs, current_doc, total) := st in
  total = sum_len current_doc
  /\ total <= chunk_size self
  /\ Forall (within (chunk_size self)) docs.

(** What the recursive call must deliver for the chunks to stay within the
    chunk size: chunks within the size if there is a call, pieces that are all
    small if there is none. *)
Definition recurse_ok (self : RecursiveCharacterTextSplitter)
  (recurse : option (string -> result (list string))) (splits : list string) : Prop :=
  match recurse with
  | Some split_rest =>
      forall s, exists chunks,
        split_rest s = Ok chunks /\ Forall (within (chunk_size self)) chunks
  | None => Forall (fun s => len s < chunk_size self) splits
  end.











Definition paragraph (c : ascii) : string :=
  string_of_list_ascii (repeat c (Z.to_nat 6000)).

Definition two_paragraphs : string :=
  paragraph "a" +:+ String "010" (String "010" (paragraph "b")).

(** * Proofs *)

Ltac unfold_bind :=
  unfold mbind, mret, result_bind, result_ret, rbind in *.

(** ** Strings and loops *)

Lemma str_app_nil_l (b : string) : "" +:+ b = b.
Proof. reflexivity. Qed.

Lemma str_app_cons (x : ascii) (a b : string) : String x a +:+ b = String x (a +:+ b).
Proof. reflexivity. Qed.

Lemma str_app_assoc (a b c : string) : (a +:+ b) +:+ c = a +:+ (b +:+ c).
Proof.
  induction a as [|x a IH]; [reflexivity|].
  rewrite !str_app_cons. now rewrite IH.
Qed.

Lemma str_app_nil_r (a : string) : a +:+ "" = a.
Proof.
  induction a as [|x a IH]; [reflexivity|].
  rewrite str_app_cons. now rewrite IH.
Qed.

Lemma str_length_app (a b : string) :
  String.length (a +:+ b) = (String.length a + String.length b)%nat.
Proof.
  induction a as [|x a IH]; [reflexivity|].
  rewrite str_app_cons. simpl. now rewrite IH.
Qed.

Lemma concat_texts_app (l1 l2 : list string) :
  concat_texts (l1 ++ l2) = concat_texts l1 +:+ concat_texts l2.
Proof.
  induction l1 as [|t l1 IH]; [reflexivity|].
  change (t +:+ concat_texts (l1 ++ l2) = (t +:+ concat_texts l1) +:+ concat_texts l2).
  now rewrite IH, str_app_assoc.
Qed.

Lemma concat_texts_has_text (l : list string) :
  concat_texts l = concat_texts (List.filter has_text l).
Proof.
  induction l as [|t l IH]; [reflexivity|].
  change (t +:+ concat_texts l
          = concat_texts (if has_text t then t :: List.filter has_text l
                          else List.filter has_text l)).
  unfold has_text at 1. destruct (String.eqb_spec t "") as [->|_]; simpl.
  - now rewrite str_app_nil_l.
  - now rewrite IH.
Qed.

Lemma concat_texts_sublist (l1 l2 : list string) :
  l1 `sublist_of` l2 ->
  (String.length (concat_texts l1) <= String.length (concat_texts l2))%nat.
Proof.
  induction 1 as [|t l1 l2 _ IH|t l1 l2 _ IH]; [reflexivity| |].
  - change (String.length (t +:+ concat_texts l1) <= String.length (t +:+ concat_texts l2))%nat.
    rewrite !str_length_app; lia.
  - change (String.length (concat_texts l1) <= String.length (t +:+ concat_texts l2))%nat.
    rewrite str_length_app; lia.
Qed.

Lemma for_each_app {A S} (f : S -> A -> result S) (xs ys : list A) (acc : S) :
  for_each f (xs ++ ys) acc = rbind (for_each f xs acc) (for_each f ys).
Proof.
  revert acc; induction xs as [|x xs IH]; intros acc; simpl; [reflexivity|].
  destruct (f acc x); simpl; [apply IH | reflexivity].
Qed.

(** ** Startup *)

Section StartupFacts.
Context `{Collaborators}.

(** C7, as the code has it. The credential check of lines 18-20 reads the
    environment left by [load_dotenv]. If GOOGLE_API_KEY is absent there, or
    present with the empty string as value, the import raises the
    [ValueError] and no endpoint becomes reachable; if it is present with a
    non-empty value, initialisation continues with the steps after the
    check. *)
Theorem credential_check_gates_startup (dotenv os_environ : gmap string string) :
  match os_getenv (load_dotenv dotenv os_environ) "GOOGLE_API_KEY" with
  | Some key =>
      if String.eqb key "" then
        module_init dotenv os_environ
          = Raise (ValueError "GOOGLE_API_KEY not found in environment variables")
        /\ reachable_endpoints (module_init dotenv os_environ) = []
      else module_init dotenv os_environ = after_credential_check key
  | None =>
      module_init dotenv os_environ
        = Raise (ValueError "GOOGLE_API_KEY not found in environment variables")
      /\ reachable_endpoints (module_init dotenv os_environ) = []
  end.
Proof.
  unfold module_init.
  destruct (os_getenv (load_dotenv dotenv os_environ) "GOOGLE_API_KEY") as [key|];
    simpl; [|split; reflexivity].
  destruct (String.eqb key ""); [split; reflexivity | reflexivity].
Qed.
End StartupFacts.

(** C7 as stated fails: with GOOGLE_API_KEY present in the environment but
    set to the empty string, the import stops at the credential check instead
    of proceeding past it. *)
Lemma present_but_empty_credential_stops_startup :
  os_getenv (load_dotenv ∅ {["GOOGLE_API_KEY" := ""]}) "GOOGLE_API_KEY" = Some ""
  /\ @module_init sample ∅ {["GOOGLE_API_KEY" := ""]}
     = Raise (ValueError "GOOGLE_API_KEY not found in environment variables")
  /\ @module_init sample ∅ {["GOOGLE_API_KEY" := ""]} <> @after_credential_check sample "".
Proof. repeat split; vm_compute; congruence. Qed.

(** ** The root route *)

(** C9. [GET /] is answered with status 200 and the body
    [{"message": "Welcome to the Ask Docs API!"}], whatever the state of the
    service. *)
Theorem read_root_welcome :
  get_root = mkResponse 200 (JDict [("message", JString "Welcome to the Ask Docs API!")]).
Proof. reflexivity. Qed.

(** ** Text extraction *)

Section ExtractorFacts.
Context `{Collaborators}.

Lemma add_pages_ok (pages : list PageObject) (texts : list string) (text : string) :
  Forall2 (fun page t => extract_text page = Ok t) pages texts ->
  for_each add_page pages text = Ok (text +:+ concat_texts texts).
Proof.
  intros Hall; revert text.
  induction Hall as [|page t pages texts Hpage _ IH]; intros text; simpl.
  - now rewrite str_app_nil_r.
  - unfold add_page at 1. unfold_bind. rewrite Hpage. simpl.
    rewrite IH. now rewrite str_app_assoc.
Qed.

Lemma add_pdfs_ok (pdf_docs : list UploadFile) (page_texts : list (list string))
  (text : string) :
  extracted_from pdf_docs page_texts ->
  for_each add_pdf pdf_docs text = Ok (text +:+ concat_texts (concat page_texts)).
Proof.
  intros Hall; revert text.
  induction Hall as [|pdf texts pdf_docs page_texts (pages & Hopen & Hpages) _ IH];
    intros text; simpl.
  - now rewrite str_app_nil_r.
  - unfold add_pdf at 1. unfold_bind. rewrite Hopen.
    rewrite (add_pages_ok _ _ _ Hpages). simpl.
    rewrite IH. now rewrite concat_texts_app, str_app_assoc.
Qed.

(** C5. When every file opens and every page is extracted, [get_pdf_text]
    returns the concatenation of the page texts in file order and, within a
    file, page order. Pages whose extracted text is empty raise nothing and
    change nothing: two uploads that differ only in such pages give the same
    string. Adding pages (anywhere, to any file, or as new files) never
    shortens the output. *)
Theorem get_pdf_text_concatenates_pages
  (pdf_docs : list UploadFile) (page_texts : list (list string)) :
  extracted_from pdf_docs page_texts ->
  get_pdf_text pdf_docs = Ok (concat_texts (concat page_texts))
  /\ (forall (other_docs : list UploadFile) (other_texts : list (list string)),
        extracted_from other_docs other_texts ->
        List.filter has_text (concat other_texts)
          = List.filter has_text (concat page_texts) ->
        get_pdf_text other_docs = get_pdf_text pdf_docs)
  /\ (forall (more_docs : list UploadFile) (more_texts : list (list string)),
        extracted_from more_docs more_texts ->
        concat page_texts `sublist_of` concat more_texts ->
        exists longer,
          get_pdf_text more_docs = Ok longer /\
          (String.length (concat_texts (concat page_texts)) <= String.length longer)%nat).
Proof.
  intros Hall.
  assert (Hrun : forall docs texts, extracted_from docs texts ->
                   get_pdf_text docs = Ok (concat_texts (concat texts))).
  { intros docs texts Hdocs. unfold get_pdf_text.
    now rewrite (add_pdfs_ok _ _ _ Hdocs). }
  split; [|split].
  - now apply Hrun.
  - intros other_docs other_texts Hother Hsame.
    rewrite (Hrun _ _ Hother), (Hrun _ _ Hall).
    now rewrite (concat_texts_has_text (concat other_texts)), Hsame,
      <- concat_texts_has_text.
  - intros more_docs more_texts Hmore Hsub.
    exists (concat_texts (concat more_texts)). split.
    + now apply Hrun.
    + now apply concat_texts_sublist.
Qed.
End ExtractorFacts.

Lemma get_pdf_text_concatenates_pages_witness :
  @get_pdf_text sample [Some ["The capital "; ""; "of France"]; Some [" is Paris."]]
  = Ok "The capital of France is Paris.".
Proof.
  refine (proj1 (@get_pdf_text_concatenates_pages sample
                   [Some ["The capital "; ""; "of France"]; Some [" is Paris."]]
                   [["The capital "; ""; "of France"]; [" is Paris."]] _)).
  repeat constructor; eexists; (split; [reflexivity | repeat constructor]).
Defined.

(** ** The vector store *)

Ltac unfold_M :=
  unfold mbind, mret, M_mbind, M_mret, M_bind, M_ret, call in *.

Section StoreFacts.
Context `{Collaborators}.

Lemma embed_documents_length (texts : list string) (embeddings : list vector) :
  embed_documents texts = Ok embeddings -> length embeddings = length texts.
Proof.
  unfold embed_documents.
  assert (Hgen : forall acc, for_each (fun vs t => v ← embed t; Ok (vs ++ [v])) texts acc
                               = Ok embeddings ->
                             length embeddings = (length acc + length texts)%nat).
  { induction texts as [|t texts IH]; intros acc; simpl.
    - intros [= <-]. lia.
    - unfold_bind. destruct (embed t) as [v|e]; simpl; [|discriminate].
      intros Hrest. apply IH in Hrest. rewrite length_app in Hrest. simpl in Hrest. lia. }
  intros Hrun. now apply Hgen in Hrun.
Qed.

Lemma collection_insert (d : disk) (directory : string) (records : list record) :
  collection (<[directory := records]> d) directory = records.
Proof. unfold collection, disk in *. now rewrite lookup_insert_eq. Qed.

Lemma Chroma_open_collection (d d' : disk) (directory : string) (vs : Chroma) :
  Chroma_open directory d = (Ok vs, d') ->
  vs = mkChroma directory
  /\ d' !! directory = Some (collection d directory)
  /\ <[directory := collection d directory]> d = d'.
Proof.
  unfold Chroma_open, collection, disk in *.
  destruct (d !! directory) as [records|] eqn:Hdir; intros [= <- <-]; simpl.
  - repeat split; [assumption | now apply insert_id].
  - repeat split. now rewrite lookup_insert_eq.
Qed.

Lemma Chroma_open_existing (d : disk) (directory : string) (records : list record) :
  d !! directory = Some records ->
  Chroma_open directory d = (Ok (mkChroma directory), d).
Proof. unfold Chroma_open. now intros ->. Qed.

Lemma concat_slices {A} (size fuel : nat) (l : list A) :
  (0 < size)%nat -> (length l <= fuel)%nat -> concat (slices size fuel l) = l.
Proof.
  intros Hsize. revert l. induction fuel as [|fuel IH]; intros l Hfuel.
  - destruct l; [reflexivity | simpl in Hfuel; lia].
  - destruct l as [|x l]; [reflexivity|]. cbn [slices concat].
    rewrite IH by (rewrite length_drop; simpl in *; lia).
    apply take_drop.
Qed.

(** The batches are the texts, cut up. *)
Lemma concat_text_batches (texts : list string) : concat (text_batches texts) = texts.
Proof.
  unfold text_batches, create_batches.
  destruct max_batch_size as [limit|]; [|apply app_nil_r].
  destruct (length texts <=? Pos.to_nat limit)%nat; [apply app_nil_r|].
  apply concat_slices; lia.
Qed.

Lemma embed_loop_from (texts : list string) (acc : list vector) :
  for_each (fun vs t => v ← embed t; Ok (vs ++ [v])) texts acc
  = rbind (embed_documents texts) (fun vs => Ok (acc ++ vs)).
Proof.
  unfold embed_documents. revert acc.
  induction texts as [|t texts IH]; intros acc; cbn [for_each].
  - cbn [rbind]. now rewrite app_nil_r.
  - unfold_bind. destruct (embed t) as [v|e]; [|reflexivity].
    rewrite (IH (acc ++ [v])), (IH ([] ++ [v])).
    destruct (for_each _ texts []) as [vs|e]; [|reflexivity].
    cbn. now rewrite <- app_assoc.
Qed.

Lemma embed_documents_app (texts1 texts2 : list string) (vs1 vs2 : list vector) :
  embed_documents texts1 = Ok vs1 ->
  embed_documents texts2 = Ok vs2 ->
  embed_documents (texts1 ++ texts2) = Ok (vs1 ++ vs2).
Proof.
  intros H1 H2. unfold embed_documents at 1.
  rewrite for_each_app. fold (embed_documents texts1). rewrite H1. cbn [rbind].
  now rewrite embed_loop_from, H2.
Qed.

(** What a run of [add_batches] leaves behind: the first [k] batches were
    embedded and written, in order; all of them if the run returned, fewer if
    it raised. *)
Lemma add_batches_run (directory : string) (batches : list (list string)) :
  forall (d d' : disk) (r : result unit),
    is_Some (d !! directory) ->
    add_batches (mkChroma directory) batches d = (r, d') ->
    exists (k : nat) (embeddings : list vector),
      embed_documents (concat (take k batches)) = Ok embeddings
      /\ d' = <[directory := collection d directory
                              ++ zip (concat (take k batches)) embeddings]> d
      /\ match r with
         | Ok _ => k = length batches
         | Raise _ => (k < length batches)%nat
         end.
Proof.
  induction batches as [|batch rest IH]; intros d d' r [stored Hdir] Hrun.
  - cbn in Hrun. injection Hrun as <- <-. exists 0%nat, []. repeat split.
    cbn. rewrite app_nil_r. unfold collection, disk in *. rewrite Hdir.
    symmetry. now apply insert_id.
  - cbn [add_batches] in Hrun. unfold_M. unfold add_texts in Hrun at 1.
    cbn [persist_directory] in Hrun.
    assert (Hstop : forall e, r = Raise e -> d' = d ->
              exists (k : nat) (embeddings : list vector),
                embed_documents (concat (take k (batch :: rest))) = Ok embeddings
                /\ d' = <[directory := collection d directory
                           ++ zip (concat (take k (batch :: rest))) embeddings]> d
                /\ match r with
                   | Ok _ => k = length (batch :: rest)
                   | Raise _ => (k < length (batch :: rest))%nat
                   end).
    { intros e -> ->. exists 0%nat, []. repeat split; [|cbn; lia].
      cbn. rewrite app_nil_r. unfold collection, disk in *. rewrite Hdir.
      symmetry. now apply insert_id. }
    destruct (embed_documents batch) as [vs|e] eqn:Hembed;
      [|injection Hrun as <- <-; now apply (Hstop e)].
    destruct (chroma_write _ _) as [[]|e];
      [|injection Hrun as <- <-; now apply (Hstop e)].
    apply IH in Hrun as (k & embeddings & Hrest & -> & Hk);
      [|unfold disk in *; rewrite lookup_insert_eq; eauto].
    exists (S k), (vs ++ embeddings). cbn [take concat]. split; [|split].
    + now apply embed_documents_app.
    + rewrite collection_insert. unfold disk in *. rewrite insert_insert_eq.
      f_equal. rewrite <- app_assoc. f_equal.
      rewrite zip_with_app; [reflexivity|].
      symmetry. now apply embed_documents_length.
    + destruct r; cbn [length]; lia.
Qed.

(** What a call of [get_vector_store] leaves behind, whether it returns or
    raises. *)
Lemma get_vector_store_run (text_chunks : list string) (d d' : disk) (r : result Chroma) :
  get_vector_store text_chunks d = (r, d') ->
  exists (k : nat) (embeddings : list vector),
    embed_documents (concat (take k (text_batches text_chunks))) = Ok embeddings
    /\ d' = <["chroma_db" := collection d "chroma_db"
                              ++ zip (concat (take k (text_batches text_chunks)))
                                   embeddings]> d
    /\ match r with
       | Ok vs => k = length (text_batches text_chunks) /\ vs = mkChroma "chroma_db"
       | Raise _ => (k < length (text_batches text_chunks))%nat
       end.
Proof.
  unfold get_vector_store, Chroma_from_texts, persist. unfold_M.
  destruct (Chroma_open "chroma_db" d) as [[vs0|e] d0] eqn:Hopen;
    [|unfold Chroma_open in Hopen; destruct (d !! "chroma_db"); discriminate].
  apply Chroma_open_collection in Hopen as (-> & Hdir & Hd0).
  destruct (add_batches _ _ d0) as [r0 d1] eqn:Hrun.
  apply add_batches_run in Hrun as (k & embeddings & Hembed & -> & Hk); [|eauto].
  intros Hout. exists k, embeddings. split; [assumption|].
  assert (Hdisk : <["chroma_db" := collection d0 "chroma_db"
                       ++ zip (concat (take k (text_batches text_chunks))) embeddings]> d0
                  = <["chroma_db" := collection d "chroma_db"
                       ++ zip (concat (take k (text_batches text_chunks))) embeddings]> d).
  { rewrite <- Hd0, collection_insert. unfold disk in *. now rewrite insert_insert_eq. }
  destruct r0 as [[]|e]; injection Hout as <- <-; (split; [exact Hdisk|]);
    [now split | assumption].
Qed.

(** A successful [get_vector_store] leaves, at the fixed path, the records
    that were there followed by one record per chunk. *)
Lemma get_vector_store_ok (text_chunks : list string) (d d' : disk) (vs : Chroma) :
  get_vector_store text_chunks d = (Ok vs, d') ->
  vs = mkChroma "chroma_db"
  /\ exists embeddings,
       embed_documents text_chunks = Ok embeddings
       /\ d' = <["chroma_db" := collection d "chroma_db" ++ zip text_chunks embeddings]> d.
Proof.
  intros Hrun.
  apply get_vector_store_run in Hrun as (k & embeddings & Hembed & -> & -> & ->).
  rewrite firstn_all, concat_text_batches in *.
  split; [reflexivity|]. now exists embeddings.
Qed.

Lemma get_vector_store_indexed (text_chunks : list string) (d d' : disk) (vs : Chroma) :
  get_vector_store text_chunks d = (Ok vs, d') ->
  indexed_texts d' = indexed_texts d ++ text_chunks
  /\ is_Some (d' !! "chroma_db").
Proof.
  intros Hrun. apply get_vector_store_ok in Hrun as (_ & embeddings & Hembed & ->).
  apply embed_documents_length in Hembed.
  unfold indexed_texts. rewrite collection_insert, map_app.
  split; [|unfold disk in *; rewrite lookup_insert_eq; eauto].
  f_equal. apply fst_zip. lia.
Qed.

Lemma documents_at_stored (stored : list record) (found : list nat) (doc : Document) :
  doc ∈ documents_at stored found -> page_content doc ∈ map fst stored.
Proof.
  unfold documents_at. rewrite list_elem_of_omap.
  intros (i & _ & Hdoc).
  destruct (stored !! i) as [r|] eqn:Hi; simpl in Hdoc; [|discriminate].
  injection Hdoc as <-. simpl.
  apply list_elem_of_fmap. exists r. split; [reflexivity|].
  now apply list_elem_of_lookup_2 in Hi.
Qed.

Lemma similarity_search_stored (vs : Chroma) (query : string) (d d' : disk)
  (docs : list Document) :
  similarity_search vs query d = (Ok docs, d') ->
  d' = d /\ forall doc, doc ∈ docs ->
              page_content doc ∈ map fst (collection d (persist_directory vs)).
Proof.
  unfold similarity_search, call. unfold_bind.
  destruct (embed query) as [qv|e]; simpl; [|discriminate].
  destruct (chroma_query _ qv DEFAULT_K) as [found|e]; simpl; [|discriminate].
  intros [= <- <-]. split; [reflexivity|].
  intros doc. apply documents_at_stored.
Qed.

Lemma retrieval_existing (question : string) (d : disk) (records : list record) :
  d !! "chroma_db" = Some records ->
  retrieval question d = similarity_search (mkChroma "chroma_db") question d.
Proof.
  intros Hdir. unfold retrieval, M_bind.
  now rewrite (Chroma_open_existing _ _ _ Hdir).
Qed.

(** C1, as the code has it. Indexing adds to what the fixed path holds and
    discards nothing: after a successful indexing of [A] and then of [B],
    the persisted chunk texts are those persisted before, followed by those
    of [A], followed by those of [B]; and every text a subsequent retrieval
    returns is one of these. *)
Theorem indexing_accumulates (A B : list string) (d d1 d2 : disk) (vsA vsB : Chroma) :
  get_vector_store A d = (Ok vsA, d1) ->
  get_vector_store B d1 = (Ok vsB, d2) ->
  indexed_texts d2 = indexed_texts d ++ A ++ B
  /\ forall (question : string) (docs : list Document) (d3 : disk),
       retrieval question d2 = (Ok docs, d3) ->
       d3 = d2
       /\ forall doc, doc ∈ docs -> page_content doc ∈ indexed_texts d ++ A ++ B.
Proof.
  intros HA HB.
  apply get_vector_store_indexed in HA as [HA _].
  apply get_vector_store_indexed in HB as [HB [records Hdir]].
  assert (Hall : indexed_texts d2 = indexed_texts d ++ A ++ B).
  { rewrite HB, HA. now rewrite <- app_assoc. }
  split; [exact Hall|].
  intros question docs d3 Hsearch.
  rewrite (retrieval_existing _ _ _ Hdir) in Hsearch.
  apply similarity_search_stored in Hsearch as [-> Hdocs].
  split; [reflexivity|].
  intros doc Hdoc. rewrite <- Hall. now apply Hdocs.
Qed.
End StoreFacts.

Lemma indexing_accumulates_witness :
  let d1 := snd (@get_vector_store sample ["alpha"] ∅) in
  let d2 := snd (@get_vector_store sample ["beta"; "gamma"] d1) in
  @indexed_texts sample d2 = @indexed_texts sample ∅ ++ ["alpha"] ++ ["beta"; "gamma"].
Proof.
  intros d1 d2.
  refine (proj1 (@indexing_accumulates sample ["alpha"] ["beta"; "gamma"] ∅ d1 d2
                   (mkChroma "chroma_db") (mkChroma "chroma_db") _ _));
    vm_compute; reflexivity.
Defined.

(** C1 as stated fails: after indexing ["alpha"] and then ["beta"] at the same
    path, the persisted index still holds "alpha", and a retrieval returns
    it. *)
Lemma second_indexing_keeps_first_chunks :
  let d1 := snd (@get_vector_store sample ["alpha"] ∅) in
  let d2 := snd (@get_vector_store sample ["beta"] d1) in
  @indexed_texts sample d2 = ["alpha"; "beta"]
  /\ fst (@retrieval sample "beta" d2) = Ok [mkDocument "alpha"; mkDocument "beta"].
Proof. split; vm_compute; reflexivity. Qed.

(** ** The question endpoint *)

Section EndpointFacts.
Context `{Collaborators}.

(** Once indexing has succeeded, the rest of the [try] block reads the disk
    and calls the chain, but writes nothing. *)
Lemma after_indexing key question files d raw_text text_chunks vs d1 :
  get_pdf_text files = Ok raw_text ->
  get_text_chunks raw_text = Ok text_chunks ->
  get_vector_store text_chunks d = (Ok vs, d1) ->
  ask_question_try key question files d =
    (docs ← fst (similarity_search (mkChroma "chroma_db") question d1);
     chain ← get_conversational_chain key;
     response ← call_chain chain docs question;
     output_text ← getitem response "output_text";
     Ok (JDict [("answer", JString output_text)]),
     d1).
Proof.
  intros Hraw Hchunks Hindex. unfold ask_question_try. unfold_M.
  rewrite Hraw, Hchunks, Hindex.
  destruct (get_vector_store_indexed _ _ _ _ Hindex) as [_ [records Hdir]].
  rewrite (Chroma_open_existing _ _ _ Hdir).
  unfold similarity_search, call. simpl. unfold_bind.
  destruct (embed question) as [qv|e]; simpl; [|reflexivity].
  destruct (chroma_query _ qv DEFAULT_K) as [found|e]; simpl; [|reflexivity].
  destruct (get_conversational_chain key) as [chain|e]; simpl; [|reflexivity].
  destruct (call_chain chain _ question) as [response|e]; simpl; [|reflexivity].
  destruct (getitem response "output_text") as [output_text|e]; reflexivity.
Qed.

(** The [try] block, stage by stage. *)
Lemma ask_question_try_stages key question files (d : disk) :
  ask_question_try key question files d
  = M_bind (call (get_pdf_text files)) (fun raw_text =>
    M_bind (call (get_text_chunks raw_text)) (fun text_chunks =>
    M_bind (get_vector_store text_chunks) (fun _ =>
    M_bind (retrieval question) (fun docs =>
    call (generation key docs question))))) d.
Proof.
  unfold ask_question_try, retrieval, generation. unfold_M.
  destruct (get_pdf_text files) as [raw_text|e]; [|reflexivity].
  destruct (get_text_chunks raw_text) as [text_chunks|e]; [|reflexivity].
  destruct (get_vector_store text_chunks d) as [[vs|e] d1]; [|reflexivity].
  destruct (Chroma_open "chroma_db" d1) as [[vs'|e] d2]; [|reflexivity].
  destruct (similarity_search vs' question d2) as [[docs|e] d3]; [|reflexivity].
  unfold_bind.
  destruct (get_conversational_chain key) as [chain|e]; [|reflexivity].
  destruct (call_chain chain docs question) as [response|e]; [|reflexivity].
  destruct (getitem response "output_text") as [output_text|e]; reflexivity.
Qed.

Lemma raised_exception_leaves_try s key question files (d : disk) (e : Exception) :
  raises_at s key question files d e ->
  fst (ask_question_try key question files d) = Raise e.
Proof.
  rewrite ask_question_try_stages. unfold M_bind, call.
  destruct s; cbn [raises_at].
  - now intros ->.
  - now intros (raw_text & -> & ->).
  - intros (raw_text & text_chunks & -> & -> & Hraise).
    destruct (get_vector_store text_chunks d) as [[vs|e'] d1]; simpl in *;
      [discriminate | congruence].
  - intros (raw_text & text_chunks & vs & d1 & -> & -> & -> & Hraise).
    destruct (retrieval question d1) as [[docs|e'] d2]; simpl in *;
      [discriminate | congruence].
  - now intros (raw_text & text_chunks & vs & d1 & docs & d2 & -> & -> & -> & -> & ->).
Qed.

(** C3. Whatever exception is raised in [ask_question], at whichever stage of
    the pipeline (extraction, chunking, indexing, retrieval, generation), the
    endpoint answers with status 400 and the body
    [{"detail": "Error processing question: <message>"}], the message being
    that of the exception. *)
Theorem ask_question_reports_exception (s : stage) key question files (d : disk)
  (e : Exception) :
  raises_at s key question files d e ->
  render (fst (ask_question key question files d))
    = mkResponse 400 (JDict [("detail", JString ("Error processing question: " +:+ str e))]).
Proof.
  intros Hraise. apply raised_exception_leaves_try in Hraise.
  unfold ask_question.
  destruct (ask_question_try key question files d) as [[value|e'] d'];
    simpl in Hraise; [discriminate|].
  now injection Hraise as ->.
Qed.

(** C10. If indexing succeeded and a later stage of the same request
    raises, the endpoint answers with the 400 error and the disk is left as
    indexing wrote it: the chunks of the request are persisted at the fixed
    path, after whatever was there. *)
Theorem failed_request_keeps_indexed_chunks key question files (d d1 d' : disk)
  raw_text text_chunks vs (e : Exception) :
  get_pdf_text files = Ok raw_text ->
  get_text_chunks raw_text = Ok text_chunks ->
  get_vector_store text_chunks d = (Ok vs, d1) ->
  ask_question_try key question files d = (Raise e, d') ->
  ask_question key question files d
    = (RaiseHTTPException 400 ("Error processing question: " +:+ str e), d1)
  /\ indexed_texts d1 = indexed_texts d ++ text_chunks.
Proof.
  intros Hraw Hchunks Hindex Hraise.
  split; [|now apply (get_vector_store_indexed _ _ _ _ Hindex)].
  unfold ask_question. rewrite Hraise.
  rewrite (after_indexing _ _ _ _ _ _ _ _ Hraw Hchunks Hindex) in Hraise.
  now injection Hraise as _ <-.
Qed.

(** C4, as the code has it. A [POST /ask_question/] whose form has no part
    named [pdf_files] is rejected while the parameters are bound: the answer
    has status 422 and a body with a ["detail"] field, and the path
    operation function does not run (the disk is untouched). *)
Theorem missing_pdf_files_is_unprocessable key
  (form : list (string * part UploadFile)) (d : disk) :
  parts_named "pdf_files" form = [] ->
  status_code (fst (post_ask_question key form d)) = 422
  /\ has_field "detail" (content (fst (post_ask_question key form d))) = true
  /\ snd (post_ask_question key form d) = d.
Proof.
  intros Hnone. unfold post_ask_question, bind_pdf_files. rewrite Hnone.
  destruct (bind_user_question form); repeat split.
Qed.
End EndpointFacts.

Lemma ask_question_reports_exception_witness :
  render (fst (@ask_question sample "key" "What is the capital of France?" [None] ∅))
  = mkResponse 400
      (JDict [("detail", JString "Error processing question: EOF marker not found")]).
Proof.
  refine (@ask_question_reports_exception sample Extraction "key" _ [None] ∅
            (mkException "PdfReadError" "EOF marker not found") _).
  reflexivity.
Defined.

Lemma failed_request_keeps_indexed_chunks_witness :
  let d1 := snd (@get_vector_store sample_provider_down ["Paris is in France."] ∅) in
  @ask_question sample_provider_down "key" "Where is Paris?"
     [Some ["Paris is "; "in France."]] ∅
  = (RaiseHTTPException 400 "Error processing question: 429 quota exceeded", d1)
  /\ @indexed_texts sample_provider_down d1 = ["Paris is in France."].
Proof.
  intros d1.
  refine (@failed_request_keeps_indexed_chunks sample_provider_down "key" "Where is Paris?"
            [Some ["Paris is "; "in France."]] ∅ d1 _
            "Paris is in France." ["Paris is in France."] (mkChroma "chroma_db")
            (mkException "ResourceExhausted" "429 quota exceeded") _ _ _ _);
    vm_compute; reflexivity.
Defined.

Lemma missing_pdf_files_is_unprocessable_witness :
  status_code (fst (@post_ask_question sample "key"
                      [("user_question", TextPart "What is the capital of France?")] ∅)) = 422
  /\ has_field "detail"
       (content (fst (@post_ask_question sample "key"
                        [("user_question", TextPart "What is the capital of France?")] ∅))) = true
  /\ snd (@post_ask_question sample "key"
            [("user_question", TextPart "What is the capital of France?")] ∅) = ∅.
Proof.
  apply (@missing_pdf_files_is_unprocessable sample). reflexivity.
Defined.

(** C4 as stated fails: the request without a [pdf_files] part is answered
    with status 422, not 400. *)
Lemma missing_pdf_files_is_not_400 :
  status_code (fst (@post_ask_question sample "key"
                      [("user_question", TextPart "What is the capital of France?")] ∅))
  <> 400.
Proof. vm_compute. discriminate. Qed.

(** ** The chunker *)





Lemma filter_singles (l : list ascii) :
  List.filter (fun s => negb (String.eqb s "")) (map single l) = map single l.
Proof. induction l as [|c l IH]; simpl; [reflexivity | now rewrite IH]. Qed.

Lemma split_chars (text : string) :
  split_text_with_regex text "" = map single (list_ascii_of_string text).
Proof. unfold split_text_with_regex. simpl. apply filter_singles. Qed.



Abbreviation str_of := string_of_list_ascii.

Ltac case_gtb :=
  match goal with
  | |- context [(?a >? ?b)%Z] => destruct (Z.gtb_spec a b); try lia
  end.





Section CharacterWindows.
Variable self : RecursiveCharacterTextSplitter.
Variables size overlap : nat.
Hypothesis Hsize : chunk_size self = Z.of_nat size.
Hypothesis Hoverlap : chunk_overlap self = Z.of_nat overlap.
Hypothesis Hlt : (overlap < size)%nat.






End CharacterWindows.




Section WindowCount.
Variables size overlap : nat.
Hypothesis Hlt : (overlap < size)%nat.




End WindowCount.








(** Every chunk fits the chunk size, whatever the text. *)

Lemma len_nonneg (s : string) : 0 <= len s.
Proof. unfold len. lia. Qed.

Lemma len_app (a b : string) : len (a +:+ b) = len a + len b.
Proof. unfold len. rewrite str_length_app. lia. Qed.

Lemma sum_len_nonneg (l : list string) : 0 <= sum_len l.
Proof. induction l as [|s l IH]; simpl; [lia | pose proof (len_nonneg s); lia]. Qed.

Lemma sum_len_app (l1 l2 : list string) : sum_len (l1 ++ l2) = sum_len l1 + sum_len l2.
Proof. induction l1 as [|s l1 IH]; simpl; [reflexivity | rewrite IH; lia]. Qed.

Lemma len_concat (l : list string) : len (String.concat "" l) = sum_len l.
Proof.
  induction l as [|s l IH]; [reflexivity|].
  destruct l as [|s' l]; [simpl; unfold len; simpl; lia|].
  change (len (s +:+ "" +:+ String.concat "" (s' :: l)) = len s + sum_len (s' :: l)).
  rewrite str_app_nil_l, len_app, IH. reflexivity.
Qed.

Lemma len_lstrip (s : string) : len (lstrip s) <= len s.
Proof.
  induction s as [|c s IH]; simpl; [lia|].
  destruct (isspace c); unfold len in *; simpl; lia.
Qed.

Lemma len_rstrip (s : string) : len (rstrip s) <= len s.
Proof.
  induction s as [|c s IH]; simpl; [lia|].
  destruct (rstrip s); [destruct (isspace c)|]; unfold len in *; simpl in *; lia.
Qed.

Lemma join_docs_within (docs : list string) (doc : string) :
  join_docs docs "" = Some doc -> 0 < len doc <= sum_len docs.
Proof.
  unfold join_docs, strip.
  destruct (String.eqb_spec (rstrip (lstrip (String.concat "" docs))) "") as [|Hne];
    [discriminate|].
  intros [= <-]. split.
  - destruct (rstrip _); [congruence | unfold len; simpl; lia].
  - rewrite <- len_concat.
    pose proof (len_rstrip (lstrip (String.concat "" docs))).
    pose proof (len_lstrip (String.concat "" docs)). lia.
Qed.

Section MergeBound.
Variable self : RecursiveCharacterTextSplitter.
Hypothesis Hoverlap : 0 <= chunk_overlap self.

Lemma pop_front_sound (_len : Z) (cur : list string) :
  forall total, total = sum_len cur ->
    exists kept,
      pop_front self 0 _len cur total = Ok (kept, sum_len kept)
      /\ (sum_len kept + _len <= chunk_size self \/ sum_len kept = 0).
Proof.
  induction cur as [|first rest IH]; intros total ->.
  - exists []. cbn [pop_front sum_len foldr nonempty].
    case_gtb. cbn [orb]. rewrite andb_false_r. split; [reflexivity | now right].
  - cbn [pop_front].
    replace (if nonempty rest then 0 else 0) with 0 by (now destruct (nonempty rest)).
    replace (sum_len (first :: rest) - (len first + 0)) with (sum_len rest)
      by (simpl; lia).
    destruct (IH (sum_len rest) eq_refl) as (kept & Hkept & Hfit).
    destruct ((sum_len (first :: rest) >? chunk_overlap self)
              || (sum_len (first :: rest) + _len
                    + (if nonempty (first :: rest) then 0 else 0) >? chunk_size self)
                 && (sum_len (first :: rest) >? 0)) eqn:Hcond.
    + exists kept. split; assumption.
    + exists (first :: rest). split; [reflexivity|].
      apply orb_false_elim in Hcond as [_ Hcond].
      apply andb_false_elim in Hcond as [Hcond|Hcond].
      * left. simpl nonempty in Hcond. cbv iota in Hcond.
        destruct (Z.gtb_spec (sum_len (first :: rest) + _len + 0) (chunk_size self));
          [discriminate | lia].
      * right. pose proof (sum_len_nonneg (first :: rest)).
        destruct (Z.gtb_spec (sum_len (first :: rest)) 0); [discriminate | lia].
Qed.

Lemma append_doc_within (docs current_doc : list string) :
  Forall (within (chunk_size self)) docs ->
  sum_len current_doc <= chunk_size self ->
  Forall (within (chunk_size self)) (append_doc docs (join_docs current_doc "")).
Proof.
  intros Hdocs Hfit. unfold append_doc.
  destruct (join_docs current_doc "") as [doc|] eqn:Hjoin; [|assumption].
  apply join_docs_within in Hjoin.
  apply Forall_app. split; [assumption|].
  constructor; [unfold within; lia | constructor].
Qed.

Lemma merge_step_sound (st : list string * list string * Z) (d : string) :
  merge_state_ok self st -> len d < chunk_size self ->
  exists st', merge_step self "" st d = Ok st' /\ merge_state_ok self st'.
Proof.
  destruct st as [[docs cur] total]. intros (-> & Hfit & Hdocs) Hd.
  unfold merge_step.
  replace (len "") with 0 by reflexivity.
  replace (if nonempty cur then 0 else 0) with 0 by (now destruct (nonempty cur)).
  assert (Hsep : forall l : list string, (if more_than_one l then 0 else 0) = 0)
    by (intros l; now destruct (more_than_one l)).
  pose proof (sum_len_nonneg cur) as Hcur. pose proof (len_nonneg d) as Hd0.
  destruct (Z.gtb_spec (sum_len cur + len d + 0) (chunk_size self)) as [Hover|Hroom].
  - destruct cur as [|first rest].
    + unfold_bind. cbn [nonempty]. cbv beta iota. rewrite Hsep.
      eexists. split; [reflexivity|]. cbn [merge_state_ok app sum_len foldr] in *.
      split; [|split]; [lia | lia | assumption].
    + cbn [nonempty].
      destruct (pop_front_sound (len d) (first :: rest) _ eq_refl) as (kept & -> & Hkept).
      unfold_bind. cbv beta iota. rewrite Hsep.
      eexists. split; [reflexivity|]. cbn [merge_state_ok].
      rewrite sum_len_app. cbn [sum_len foldr].
      pose proof (sum_len_nonneg kept).
      split; [|split]; [lia | lia |].
      now apply append_doc_within.
  - unfold_bind. cbv beta iota. rewrite Hsep.
    eexists. split; [reflexivity|]. cbn [merge_state_ok].
    rewrite sum_len_app. cbn [sum_len foldr].
    split; [|split]; [lia | lia | assumption].
Qed.

Lemma merge_loop_sound (splits : list string) :
  forall st, merge_state_ok self st ->
    Forall (fun s => len s < chunk_size self) splits ->
    exists st', for_each (merge_step self "") splits st = Ok st' /\ merge_state_ok self st'.
Proof.
  induction splits as [|d splits IH]; intros st Hst Hsplits.
  - exists st. split; [reflexivity | assumption].
  - apply Forall_cons in Hsplits as [Hd Hsplits].
    destruct (merge_step_sound st d Hst Hd) as (st1 & Hstep & Hst1).
    cbn [for_each]. rewrite Hstep. cbn [rbind]. now apply IH.
Qed.

Lemma merge_splits_within (splits : list string) :
  0 <= chunk_size self ->
  Forall (fun s => len s < chunk_size self) splits ->
  exists docs,
    merge_splits self splits "" = Ok docs /\ Forall (within (chunk_size self)) docs.
Proof.
  intros Hsize Hsplits. unfold merge_splits.
  destruct (merge_loop_sound splits ([], [], 0)) as ([[docs cur] total] & -> & Hst);
    [split; [|split]; [reflexivity | assumption | constructor] | assumption |].
  destruct Hst as (-> & Hfit & Hdocs). unfold_bind. cbv beta iota.
  eexists. split; [reflexivity|]. now apply append_doc_within.
Qed.
End MergeBound.

Section SplitBound.
Variable self : RecursiveCharacterTextSplitter.
Hypothesis Hoverlap : 0 <= chunk_overlap self.
Hypothesis Hsize : 1 < chunk_size self.

Lemma extend_merged_within (final_chunks good : list string) :
  Forall (within (chunk_size self)) final_chunks ->
  Forall (fun s => len s < chunk_size self) good ->
  exists chunks,
    extend_merged self final_chunks good = Ok chunks
    /\ Forall (within (chunk_size self)) chunks.
Proof.
  intros Hfinal Hgood. unfold extend_merged.
  destruct (nonempty good); [|eauto].
  destruct (merge_splits_within self Hoverlap good ltac:(lia) Hgood) as (merged & -> & Hmerged).
  unfold_bind. eexists. split; [reflexivity|].
  apply Forall_app. now split.
Qed.

Lemma split_loop_within (recurse : option (string -> result (list string)))
  (splits : list string) :
  recurse_ok self recurse splits ->
  forall final_chunks good,
    Forall (within (chunk_size self)) final_chunks ->
    Forall (fun s => len s < chunk_size self) good ->
    exists final_chunks' good',
      for_each (fun '(final_chunks, _good_splits) s =>
        if (len s <? chunk_size self)%Z then Ok (final_chunks, _good_splits ++ [s])
        else
          final_chunks ← extend_merged self final_chunks _good_splits;
          match recurse with
          | None => Ok (final_chunks ++ [s], [])
          | Some split_rest =>
              other_info ← split_rest s;
              Ok (final_chunks ++ other_info, [])
          end) splits (final_chunks, good)
      = Ok (final_chunks', good')
      /\ Forall (within (chunk_size self)) final_chunks'
      /\ Forall (fun s => len s < chunk_size self) good'.
Proof.
  induction splits as [|s splits IH]; intros Hrec final_chunks good Hfinal Hgood.
  - exists final_chunks, good. repeat split; assumption.
  - assert (Hrec' : recurse_ok self recurse splits).
    { destruct recurse; [exact Hrec | now apply Forall_cons in Hrec as [_ ?]]. }
    cbn [for_each].
    destruct (Z.ltb_spec (len s) (chunk_size self)) as [Hsmall|Hbig].
    + cbn [rbind]. apply (IH Hrec'); [assumption|].
      apply Forall_app. split; [assumption | now constructor].
    + destruct (extend_merged_within _ _ Hfinal Hgood) as (merged & -> & Hmerged).
      unfold_bind. destruct recurse as [split_rest|].
      * destruct (Hrec s) as (other & -> & Hother).
        apply (IH Hrec'); [apply Forall_app; now split | constructor].
      * apply Forall_cons in Hrec as [Hs _]. lia.
Qed.

Lemma split_pieces_within (recurse : option (string -> result (list string)))
  (separator text : string) :
  recurse_ok self recurse (split_text_with_regex text separator) ->
  exists chunks,
    split_pieces self recurse separator text = Ok chunks
    /\ Forall (within (chunk_size self)) chunks.
Proof.
  intros Hrec. unfold split_pieces.
  destruct (split_loop_within recurse _ Hrec [] []) as (final & good & -> & Hfinal & Hgood);
    [constructor | constructor |].
  unfold_bind. cbv beta iota. now apply extend_merged_within.
Qed.

Lemma singles_small (l : list ascii) :
  Forall (fun s => len s < chunk_size self) (map single l).
Proof. apply Forall_fmap, Forall_forall. intros c _. unfold len, single. simpl. lia. Qed.

Lemma split_text_rec_within (seps : list string) (last_separator : string) :
  "" ∈ seps ->
  forall text, exists chunks,
    split_text_rec self seps last_separator text = Ok chunks
    /\ Forall (within (chunk_size self)) chunks.
Proof.
  induction seps as [|_s rest IH]; intros Hin text; [now apply elem_of_nil in Hin|].
  cbn [split_text_rec].
  destruct (String.eqb_spec _s "") as [->|Hne].
  - apply split_pieces_within. cbn [recurse_ok].
    rewrite split_chars. apply singles_small.
  - apply elem_of_cons in Hin as [Heq|Hin]; [congruence|].
    destruct (contains _s text); [|now apply IH].
    apply split_pieces_within.
    destruct rest as [|s' rest']; [now apply elem_of_nil in Hin|].
    cbn [nonempty recurse_ok]. intros s. now apply IH.
Qed.
End SplitBound.

Lemma get_text_chunks_within (text : string) :
  exists chunks, get_text_chunks text = Ok chunks /\ Forall (within 10000) chunks.
Proof.
  unfold get_text_chunks, split_text. cbn [separators default_separators].
  apply (split_text_rec_within (mkSplitter 10000 1000 default_separators));
    cbn [chunk_overlap chunk_size]; [lia | lia |].
  unfold default_separators. set_solver.
Qed.

(** Cutting a text into pieces loses nothing. *)

Lemma re_split_skip (sep u t : string) :
  re_split sep (String.length u) (u +:+ t) = re_split sep 0 t.
Proof.
  induction u as [|c u IH]; [reflexivity|].
  rewrite str_app_cons. cbn [String.length re_split]. exact IH.
Qed.

Lemma prefix_app (sep text : string) :
  String.prefix sep text = true -> exists t, text = sep +:+ t.
Proof.
  revert text. induction sep as [|a sep IH]; intros text Hpre.
  - exists text. reflexivity.
  - destruct text as [|b text]; [discriminate|]. cbn [String.prefix] in Hpre.
    destruct (ascii_dec a b) as [->|]; [|discriminate].
    destruct (IH _ Hpre) as [t ->]. exists t. now rewrite str_app_cons.
Qed.

Lemma len_cons (c : ascii) (s : string) : len (String c s) = 1 + len s.
Proof. unfold len. cbn [String.length]. lia. Qed.

(** Cutting at a separator loses nothing: the first piece followed by the
    other pieces, each behind a separator, is the text. *)
Lemma re_split_rejoin (sep : string) (n : nat) :
  sep <> "" ->
  forall text, (String.length text <= n)%nat ->
    exists piece pieces,
      re_split sep 0 text = piece :: pieces
      /\ piece +:+ concat_texts (map (String.append sep) pieces) = text.
Proof.
  intros Hsep. induction n as [|n IH]; intros text Hlen.
  - destruct text; [|cbn in Hlen; lia]. exists "", []. split; reflexivity.
  - destruct text as [|c rest]; [exists "", []; split; reflexivity|].
    cbn [String.length] in Hlen. cbn [re_split].
    destruct (String.prefix sep (String c rest)) eqn:Hpre.
    + destruct (prefix_app _ _ Hpre) as [t Ht].
      destruct sep as [|a sep']; [congruence|].
      rewrite str_app_cons in Ht. injection Ht as <- ->.
      cbn [String.length]. rewrite Nat.sub_succ, Nat.sub_0_r, re_split_skip.
      destruct (IH t) as (piece & pieces & -> & Hjoin).
      { rewrite str_length_app in Hlen. lia. }
      exists "", (piece :: pieces). split; [reflexivity|].
      rewrite str_app_nil_l. cbn [map concat_texts foldr].
      fold (concat_texts (map (String.append (String c sep')) pieces)).
      now rewrite str_app_assoc, Hjoin.
    + destruct (IH rest ltac:(lia)) as (piece & pieces & -> & Hjoin).
      exists (String c piece), pieces. split; [reflexivity|].
      now rewrite str_app_cons, Hjoin.
Qed.

Lemma concat_texts_singles (l : list ascii) :
  concat_texts (map single l) = string_of_list_ascii l.
Proof.
  induction l as [|c l IH]; [reflexivity|].
  cbn [map concat_texts foldr]. fold (concat_texts (map single l)).
  now rewrite IH.
Qed.

Lemma split_text_with_regex_rejoin (text separator : string) :
  concat_texts (split_text_with_regex text separator) = text.
Proof.
  unfold split_text_with_regex.
  change (fun s : string => negb (String.eqb s "")) with has_text.
  rewrite <- concat_texts_has_text.
  destruct (String.eqb_spec separator "") as [->|Hsep].
  - now rewrite concat_texts_singles, string_of_list_ascii_of_string.
  - destruct (re_split_rejoin separator (String.length text) Hsep text (le_n _))
      as (piece & pieces & -> & Hjoin).
    exact Hjoin.
Qed.

Lemma concat_is_concat_texts (l : list string) : String.concat "" l = concat_texts l.
Proof.
  induction l as [|s l IH]; [reflexivity|].
  destruct l as [|s' l].
  - cbn. now rewrite str_app_nil_r.
  - change (s +:+ "" +:+ String.concat "" (s' :: l) = s +:+ concat_texts (s' :: l)).
    now rewrite str_app_nil_l, IH.
Qed.

Lemma sum_len_concat_texts (l : list string) : sum_len l = len (concat_texts l).
Proof. rewrite <- concat_is_concat_texts. symmetry. apply len_concat. Qed.

Lemma piece_le_sum (l : list string) : Forall (fun s => len s <= sum_len l) l.
Proof.
  induction l as [|s l IH]; constructor; cbn [sum_len foldr];
    fold (sum_len l); pose proof (sum_len_nonneg l); pose proof (len_nonneg s); [lia|].
  eapply Forall_impl; [exact IH|]. cbn. intros. lia.
Qed.

Lemma rstrip_cons (c : ascii) (s : string) :
  rstrip (String c s)
  = match rstrip s with
    | EmptyString => if isspace c then EmptyString else String c EmptyString
    | kept => String c kept
    end.
Proof. reflexivity. Qed.

(** The windows behind the chunks: [get_text_chunks] cuts windows that cover
    the text, and strips them. *)








Section Tiles.
Variable overlap : Z.
Hypothesis Hoverlap : 0 <= overlap.


End Tiles.



Section MergeCut.
Variable self : RecursiveCharacterTextSplitter.
Hypothesis Hoverlap : 0 <= chunk_overlap self.







End MergeCut.

Section SplitCut.
Variable self : RecursiveCharacterTextSplitter.
Hypothesis Hoverlap : 0 <= chunk_overlap self.
Hypothesis Hsize : 1 < chunk_size self.




End SplitCut.





(** C6. [get_text_chunks] on the empty string returns the empty list. *)
Theorem get_text_chunks_empty : get_text_chunks "" = Ok [].
Proof. reflexivity. Qed.

(** * Further properties of the code *)

(** ** More about text extraction and startup *)

Section MoreExtractorFacts.
Context `{Collaborators}.

Lemma add_pages_from (pages : list PageObject) (text : string) :
  for_each add_page pages text
  = rbind (for_each add_page pages "") (fun t => Ok (text +:+ t)).
Proof.
  revert text. induction pages as [|page pages IH]; intros text; cbn [for_each].
  - cbn [rbind]. now rewrite str_app_nil_r.
  - unfold add_page at 1 3. unfold_bind.
    destruct (extract_text page) as [t|e]; [|reflexivity].
    rewrite str_app_nil_l, (IH (text +:+ t)), (IH t).
    destruct (for_each add_page pages "") as [u|e]; [|reflexivity].
    cbn. now rewrite str_app_assoc.
Qed.

Lemma add_pdfs_from (pdf_docs : list UploadFile) (text : string) :
  for_each add_pdf pdf_docs text
  = rbind (for_each add_pdf pdf_docs "") (fun t => Ok (text +:+ t)).
Proof.
  revert text. induction pdf_docs as [|pdf pdf_docs IH]; intros text; cbn [for_each].
  - cbn [rbind]. now rewrite str_app_nil_r.
  - unfold add_pdf at 1 3. unfold_bind.
    destruct (PdfReader pdf) as [pages|e]; [|reflexivity].
    rewrite (add_pages_from pages text).
    destruct (for_each add_page pages "") as [t|e]; [|reflexivity].
    cbn [rbind]. rewrite (IH (text +:+ t)), (IH t).
    destruct (for_each add_pdf pdf_docs "") as [u|e]; [|reflexivity].
    cbn. now rewrite str_app_assoc.
Qed.

Lemma get_pdf_text_split (docs1 docs2 : list UploadFile) :
  get_pdf_text (docs1 ++ docs2)
  = rbind (get_pdf_text docs1) (fun t1 =>
    rbind (get_pdf_text docs2) (fun t2 => Ok (t1 +:+ t2))).
Proof.
  unfold get_pdf_text. rewrite for_each_app.
  destruct (for_each add_pdf docs1 "") as [t1|e]; [|reflexivity].
  cbn [rbind]. apply add_pdfs_from.
Qed.

(** X1. Extraction distributes over the list of files: the text of
    [docs1 ++ docs2] is the text of [docs1] followed by the text of [docs2],
    and it fails with the exception of [docs1] if that part fails, else with
    the exception of [docs2]. *)
Theorem get_pdf_text_app (docs1 docs2 : list UploadFile) :
  get_pdf_text (docs1 ++ docs2)
  = (t1 ← get_pdf_text docs1; t2 ← get_pdf_text docs2; Ok (t1 +:+ t2)).
Proof. apply get_pdf_text_split. Qed.

(** X2. One file that cannot be extracted makes the whole extraction fail
    with that file's exception, whatever the earlier files yielded and
    whatever comes after it: either the file does not open, or one of its
    pages fails after the pages before it were extracted. No partial text is
    returned. *)
Theorem get_pdf_text_first_failure (before after : list UploadFile) (bad : UploadFile)
  (text : string) (e : Exception) :
  get_pdf_text before = Ok text ->
  (PdfReader bad = Raise e
   \/ exists ok_pages page rest texts,
        PdfReader bad = Ok (ok_pages ++ page :: rest)
        /\ Forall2 (fun p t => extract_text p = Ok t) ok_pages texts
        /\ extract_text page = Raise e) ->
  get_pdf_text (before ++ bad :: after) = Raise e.
Proof.
  intros Hbefore Hbad.
  rewrite get_pdf_text_split, Hbefore. cbn [rbind].
  replace (get_pdf_text (bad :: after)) with (Raise (A:=string) e); [reflexivity|].
  unfold get_pdf_text. cbn [for_each]. unfold add_pdf at 1. unfold_bind.
  destruct Hbad as [-> | (ok_pages & page & rest & texts & -> & Hok & Hpage)];
    [reflexivity|].
  rewrite for_each_app, (add_pages_ok _ _ _ Hok). cbn [rbind for_each].
  unfold add_page at 1. unfold_bind. now rewrite Hpage.
Qed.
End MoreExtractorFacts.

Lemma get_pdf_text_first_failure_witness :
  @get_pdf_text sample [Some ["page one"]; None; Some ["never read"]]
  = Raise (mkException "PdfReadError" "EOF marker not found").
Proof.
  refine (@get_pdf_text_first_failure sample [Some ["page one"]] [Some ["never read"]]
            None "page one" _ _ _); [reflexivity | left; reflexivity].
Defined.

Section MoreStartupFacts.
Context `{Collaborators}.

(** X3. With a non-empty credential, an exception of [genai.configure] is
    re-raised as [Exception("Error configuring Google API: <message>")]
    (lines 31-34); the import fails and no endpoint becomes reachable. *)
Theorem genai_configure_failure_is_wrapped (dotenv os_environ : gmap string string)
  (key : string) (e : Exception) :
  os_getenv (load_dotenv dotenv os_environ) "GOOGLE_API_KEY" = Some key ->
  key <> "" ->
  genai_configure key = Raise e ->
  module_init dotenv os_environ
    = Raise (Exception_ ("Error configuring Google API: " +:+ str e))
  /\ reachable_endpoints (module_init dotenv os_environ) = [].
Proof.
  intros Hkey Hne Hconf. unfold module_init. rewrite Hkey. cbn [py_not default from_option id].
  apply String.eqb_neq in Hne. rewrite Hne.
  unfold after_credential_check. unfold_bind. rewrite Hconf. split; reflexivity.
Qed.

(** X4. The credential may come from the process environment or from the
    [.env] file; a non-empty value in the process environment is the one used
    even if the [.env] file gives another, and the [.env] value is used when
    the process environment has none. *)
Theorem process_environment_overrides_dotenv (dotenv os_environ : gmap string string)
  (key : string) :
  key <> "" ->
  (os_environ !! "GOOGLE_API_KEY" = Some key
   \/ (os_environ !! "GOOGLE_API_KEY" = None /\ dotenv !! "GOOGLE_API_KEY" = Some key)) ->
  module_init dotenv os_environ = after_credential_check key.
Proof.
  intros Hne Hfrom.
  assert (Hkey : os_getenv (load_dotenv dotenv os_environ) "GOOGLE_API_KEY" = Some key).
  { unfold os_getenv, load_dotenv. rewrite lookup_union.
    destruct Hfrom as [-> | [-> ->]]; [|reflexivity].
    now destruct (dotenv !! "GOOGLE_API_KEY"). }
  unfold module_init. rewrite Hkey. cbn [py_not default from_option id].
  apply String.eqb_neq in Hne. now rewrite Hne.
Qed.

(** X5. Startup is all or nothing: an endpoint is reachable exactly when
    the credential is present and non-empty, [genai.configure] accepts it and
    the embedding model loads. *)
Theorem endpoints_need_every_startup_step (dotenv os_environ : gmap string string) :
  reachable_endpoints (module_init dotenv os_environ) <> []
  <-> exists key,
        os_getenv (load_dotenv dotenv os_environ) "GOOGLE_API_KEY" = Some key
        /\ key <> ""
        /\ genai_configure key = Ok tt
        /\ HuggingFaceEmbeddings "BAAI/bge-small-en" = Ok tt.
Proof.
  unfold module_init.
  destruct (os_getenv (load_dotenv dotenv os_environ) "GOOGLE_API_KEY") as [key|];
    cbn [py_not default from_option id].
  - destruct (String.eqb_spec key "") as [->|Hne].
    + split; [intros Hne; now destruct Hne | intros (k & [= <-] & Hk & _); congruence].
    + unfold after_credential_check. unfold_bind.
      destruct (genai_configure key) as [[]|e] eqn:Hconf.
      * destruct (HuggingFaceEmbeddings "BAAI/bge-small-en") as [[]|e] eqn:Hload.
        -- split; [intros _; eauto | intros _; discriminate].
        -- split; [intros Habs; now destruct Habs
                  | intros (k & [= <-] & _ & _ & ?); discriminate].
      * split; [intros Habs; now destruct Habs
               | intros (k & [= <-] & _ & ? & _); congruence].
  - split; [intros Habs; now destruct Habs | intros (k & ? & _); discriminate].
Qed.
End MoreStartupFacts.

Lemma genai_configure_failure_is_wrapped_witness :
  @module_init sample_rejected_key ∅ {["GOOGLE_API_KEY" := "secret"]}
    = Raise (Exception_ "Error configuring Google API: invalid api key")
  /\ @reachable_endpoints (@module_init sample_rejected_key ∅ {["GOOGLE_API_KEY" := "secret"]}) = [].
Proof.
  refine (@genai_configure_failure_is_wrapped sample_rejected_key ∅
            {["GOOGLE_API_KEY" := "secret"]} "secret"
            (mkException "ValueError" "invalid api key") _ _ _);
    [reflexivity | discriminate | reflexivity].
Defined.

Lemma process_environment_overrides_dotenv_witness :
  @module_init sample {["GOOGLE_API_KEY" := "from-file"]} {["GOOGLE_API_KEY" := "from-shell"]}
  = @after_credential_check sample "from-shell".
Proof.
  refine (@process_environment_overrides_dotenv sample _ _ "from-shell" _ _);
    [discriminate | left; reflexivity].
Defined.

(** ** More about the vector store and the question endpoint *)

Section MoreStoreFacts.
Context `{Collaborators}.

Lemma Chroma_open_result (directory : string) (d : disk) :
  fst (Chroma_open directory d) = Ok (mkChroma directory)
  /\ (forall other, collection (snd (Chroma_open directory d)) other = collection d other)
  /\ (forall other, other <> directory ->
        snd (Chroma_open directory d) !! other = d !! other).
Proof.
  unfold Chroma_open, collection, disk in *.
  destruct (d !! directory) as [records|] eqn:Hdir; cbn [fst snd];
    (split; [reflexivity|]); split; try reflexivity.
  - intros other. destruct (decide (other = directory)) as [->|Hne].
    + now rewrite lookup_insert_eq, Hdir.
    + now rewrite lookup_insert_ne by congruence.
  - intros other Hne. now rewrite lookup_insert_ne by congruence.
Qed.

Lemma embed_documents_each (texts : list string) (embeddings : list vector) :
  embed_documents texts = Ok embeddings ->
  Forall2 (fun t v => embed t = Ok v) texts embeddings.
Proof.
  unfold embed_documents.
  assert (Hgen : forall acc done,
            Forall2 (fun t v => embed t = Ok v) done acc ->
            for_each (fun vs t => v ← embed t; Ok (vs ++ [v])) texts acc = Ok embeddings ->
            Forall2 (fun t v => embed t = Ok v) (done ++ texts) embeddings).
  { induction texts as [|t texts IH]; intros acc done Hdone; cbn [for_each].
    - intros [= <-]. now rewrite app_nil_r.
    - unfold_bind. destruct (embed t) as [v|e] eqn:Ht; [|discriminate].
      intros Hrest. replace (done ++ t :: texts) with ((done ++ [t]) ++ texts)
        by now rewrite <- app_assoc.
      apply (IH (acc ++ [v])); [|assumption].
      apply Forall2_app; [assumption | now constructor]. }
  intros Hrun. now apply (Hgen [] []).
Qed.

(** The texts a call of [get_vector_store] leaves at the fixed path, whether
    it returns or raises: those that were there, followed by the texts of the
    batches written. *)
Lemma get_vector_store_texts (text_chunks : list string) (d : disk) :
  exists k : nat,
    indexed_texts (snd (get_vector_store text_chunks d))
      = indexed_texts d ++ concat (take k (text_batches text_chunks))
    /\ match fst (get_vector_store text_chunks d) with
       | Ok _ => k = length (text_batches text_chunks)
       | Raise _ => (k < length (text_batches text_chunks))%nat
       end.
Proof.
  destruct (get_vector_store text_chunks d) as [r d'] eqn:Hrun.
  apply get_vector_store_run in Hrun as (k & embeddings & Hembed & -> & Hk).
  exists k. cbn [fst snd]. split.
  - unfold indexed_texts. rewrite collection_insert, map_app. f_equal.
    apply fst_zip. rewrite (embed_documents_length _ _ Hembed). lia.
  - destruct r; tauto.
Qed.




(** X7. A successful [get_vector_store] appends one record per chunk, in the
    order of the chunks, and the vector of each record is the embedding of
    that record's own text. *)
Theorem indexed_records_pair_chunks_with_embeddings (text_chunks : list string)
  (d d' : disk) (vs : Chroma) :
  get_vector_store text_chunks d = (Ok vs, d') ->
  exists added : list record,
    collection d' "chroma_db" = collection d "chroma_db" ++ added
    /\ map fst added = text_chunks
    /\ Forall (fun r : record => embed (fst r) = Ok (snd r)) added.
Proof.
  intros Hrun. apply get_vector_store_ok in Hrun as (_ & embeddings & Hembed & ->).
  exists (zip text_chunks embeddings).
  pose proof (embed_documents_length _ _ Hembed) as Hlen.
  apply embed_documents_each in Hembed.
  split; [now rewrite collection_insert|]. split.
  - apply fst_zip. lia.
  - clear Hlen. induction Hembed as [|t v ts vs' Htv _ IH]; cbn [zip zip_with];
      constructor; assumption.
Qed.

(** X8. The retrieval stage only reads: when it returns, the persisted
    texts are what they were, every returned document carries one of them,
    and on a missing or empty index it returns no document at all. *)
Theorem retrieval_reads_only (question : string) (d d' : disk) (docs : list Document) :
  retrieval question d = (Ok docs, d') ->
  indexed_texts d' = indexed_texts d
  /\ (forall doc, doc ∈ docs -> page_content doc ∈ indexed_texts d)
  /\ (indexed_texts d = [] -> docs = []).
Proof.
  unfold retrieval, M_bind.
  destruct (Chroma_open_result "chroma_db" d) as (Hvs & Hsame & _).
  destruct (Chroma_open "chroma_db" d) as [r d0]. cbn [fst snd] in *. subst r.
  intros Hsearch.
  assert (Htexts : indexed_texts d0 = indexed_texts d)
    by (unfold indexed_texts; now rewrite Hsame).
  pose proof Hsearch as Hdocs.
  apply similarity_search_stored in Hdocs as [-> Hdocs]. cbn [persist_directory] in Hdocs.
  fold (indexed_texts d0) in Hdocs. rewrite Htexts in Hdocs.
  split; [assumption|]. split; [assumption|].
  intros Hempty. rewrite Hempty in Hdocs.
  destruct docs as [|doc docs]; [reflexivity|].
  specialize (Hdocs doc ltac:(left)). now apply elem_of_nil in Hdocs.
Qed.
End MoreStoreFacts.


Lemma indexed_records_pair_chunks_with_embeddings_witness :
  exists added : list (string * nat),
    @collection sample (snd (@get_vector_store sample ["alpha"; "be"] ∅)) "chroma_db"
      = @collection sample ∅ "chroma_db" ++ added
    /\ map fst added = ["alpha"; "be"]
    /\ Forall (fun r => @embed sample (fst r) = Ok (snd r)) added.
Proof.
  refine (@indexed_records_pair_chunks_with_embeddings sample ["alpha"; "be"] ∅ _
            (mkChroma "chroma_db") _).
  vm_compute. reflexivity.
Defined.

Lemma retrieval_reads_only_witness :
  @indexed_texts sample (snd (@retrieval sample "anything" ∅)) = @indexed_texts sample ∅
  /\ (forall doc, doc ∈ ([] : list Document) -> page_content doc ∈ @indexed_texts sample ∅)
  /\ (@indexed_texts sample ∅ = [] -> ([] : list Document) = []).
Proof.
  refine (@retrieval_reads_only sample "anything" ∅ _ [] _).
  vm_compute. reflexivity.
Defined.

Section MoreEndpointFacts.
Context `{Collaborators}.

Lemma generation_answer key docs question (value : json) :
  generation key docs question = Ok value ->
  exists chain response output_text,
    get_conversational_chain key = Ok chain
    /\ call_chain chain docs question = Ok response
    /\ getitem response "output_text" = Ok output_text
    /\ value = JDict [("answer", JString output_text)].
Proof.
  unfold generation. unfold_bind.
  destruct (get_conversational_chain key) as [chain|e]; [|discriminate].
  destruct (call_chain chain docs question) as [response|e] eqn:Hcall; [|discriminate].
  destruct (getitem response "output_text") as [output_text|e] eqn:Hout; [|discriminate].
  intros [= <-]. exists chain, response, output_text. repeat split; assumption.
Qed.

Lemma retrieval_disk (question : string) (d : disk) :
  snd (retrieval question d) = snd (Chroma_open "chroma_db" d).
Proof.
  unfold retrieval, M_bind.
  destruct (Chroma_open_result "chroma_db" d) as (Hvs & _).
  destruct (Chroma_open "chroma_db" d) as [r d0]. cbn [fst snd] in *. subst r.
  reflexivity.
Qed.

Lemma getitem_missing (response : list (string * string)) (key : string) :
  Forall (fun kv => fst kv <> key) response ->
  getitem response key = Raise (KeyError key).
Proof.
  induction 1 as [|[k v] response Hk _ IH]; cbn [getitem]; [reflexivity|].
  cbn [fst] in Hk. apply String.eqb_neq in Hk. now rewrite Hk.
Qed.

(** The disk a request leaves behind. *)
Lemma ask_question_disk key question files (d : disk) :
  snd (ask_question key question files d)
  = match get_pdf_text files with
    | Raise _ => d
    | Ok raw_text =>
        match get_text_chunks raw_text with
        | Raise _ => d
        | Ok text_chunks =>
            match get_vector_store text_chunks d with
            | (Raise _, d1) => d1
            | (Ok _, d1) => snd (Chroma_open "chroma_db" d1)
            end
        end
    end.
Proof.
  unfold ask_question.
  replace (snd (let (r, d') := ask_question_try key question files d in
                match r with
                | Ok value => (Return value, d')
                | Raise e =>
                    (RaiseHTTPException 400 ("Error processing question: " +:+ str e), d')
                end))
    with (snd (ask_question_try key question files d))
    by (destruct (ask_question_try key question files d) as [[?|?] ?]; reflexivity).
  rewrite ask_question_try_stages. unfold M_bind, call.
  destruct (get_pdf_text files) as [raw_text|e]; [|reflexivity].
  destruct (get_text_chunks raw_text) as [text_chunks|e]; [|reflexivity].
  destruct (get_vector_store text_chunks d) as [[vs|e] d1]; [|reflexivity].
  rewrite <- (retrieval_disk question d1).
  destruct (retrieval question d1) as [[docs|e] d2]; reflexivity.
Qed.

(** X9. When every stage succeeds, the endpoint answers with status 200 and
    the body [{"answer": <output_text>}], the text being the chain's
    [output_text] unchanged; the index then holds what it held before followed
    by the chunks of this request. *)
Theorem ask_question_success key question files (d d1 d2 : disk)
  raw_text text_chunks vs docs chain response output_text :
  get_pdf_text files = Ok raw_text ->
  get_text_chunks raw_text = Ok text_chunks ->
  get_vector_store text_chunks d = (Ok vs, d1) ->
  retrieval question d1 = (Ok docs, d2) ->
  get_conversational_chain key = Ok chain ->
  call_chain chain docs question = Ok response ->
  getitem response "output_text" = Ok output_text ->
  render (fst (ask_question key question files d))
    = mkResponse 200 (JDict [("answer", JString output_text)])
  /\ indexed_texts (snd (ask_question key question files d))
     = indexed_texts d ++ text_chunks.
Proof.
  intros Hraw Hchunks Hindex Hdocs Hchain Hcall Hout. split.
  - unfold ask_question. rewrite ask_question_try_stages. unfold M_bind, call.
    rewrite Hraw, Hchunks, Hindex, Hdocs. unfold generation. unfold_bind.
    now rewrite Hchain, Hcall, Hout.
  - rewrite ask_question_disk, Hraw, Hchunks, Hindex.
    destruct (Chroma_open_result "chroma_db" d1) as (_ & Hsame & _).
    unfold indexed_texts at 1. rewrite Hsame.
    apply (get_vector_store_indexed _ _ _ _ Hindex).
Qed.

(** X10. [ask_question] answers with status 200 and a body of exactly one
    field ["answer"], when the [try] block completes, or with status 400 and
    the ["detail"] message of the exception the block raised; it gives no
    other answer. *)
Theorem ask_question_answers_200_or_400 key question files (d : disk) :
  (exists output_text,
     render (fst (ask_question key question files d))
       = mkResponse 200 (JDict [("answer", JString output_text)])
     /\ exists value, fst (ask_question_try key question files d) = Ok value)
  \/ (exists e,
        render (fst (ask_question key question files d))
          = mkResponse 400
              (JDict [("detail", JString ("Error processing question: " +:+ str e))])
        /\ fst (ask_question_try key question files d) = Raise e).
Proof.
  unfold ask_question.
  destruct (ask_question_try key question files d) as [[value|e] d'] eqn:Htry;
    [left | right; eauto].
  rewrite ask_question_try_stages in Htry. unfold M_bind, call in Htry.
  destruct (get_pdf_text files) as [raw_text|?]; [|discriminate].
  destruct (get_text_chunks raw_text) as [text_chunks|?]; [|discriminate].
  destruct (get_vector_store text_chunks d) as [[vs|?] d1]; [|discriminate].
  destruct (retrieval question d1) as [[docs|?] d2]; [|discriminate].
  destruct (generation key docs question) as [v|?] eqn:Hgen; [|discriminate].
  injection Htry as <- <-.
  apply generation_answer in Hgen as (_ & _ & output_text & _ & _ & _ & ->).
  exists output_text. split; [reflexivity | eauto].
Qed.

(** X11. If the chain's output dict has no key ["output_text"], the lookup
    of line 127 raises [KeyError] inside the [try] block, and the endpoint
    answers with status 400 and the detail
    ["Error processing question: 'output_text'"]. *)
Theorem missing_output_text_is_a_400 key question files (d d1 d2 : disk)
  raw_text text_chunks vs docs chain response :
  get_pdf_text files = Ok raw_text ->
  get_text_chunks raw_text = Ok text_chunks ->
  get_vector_store text_chunks d = (Ok vs, d1) ->
  retrieval question d1 = (Ok docs, d2) ->
  get_conversational_chain key = Ok chain ->
  call_chain chain docs question = Ok response ->
  Forall (fun kv => fst kv <> "output_text") response ->
  render (fst (ask_question key question files d))
    = mkResponse 400
        (JDict [("detail", JString "Error processing question: 'output_text'")]).
Proof.
  intros Hraw Hchunks Hindex Hdocs Hchain Hcall Hmissing.
  unfold ask_question. rewrite ask_question_try_stages. unfold M_bind, call.
  rewrite Hraw, Hchunks, Hindex, Hdocs. unfold generation. unfold_bind.
  now rewrite Hchain, Hcall, (getitem_missing _ _ Hmissing).
Qed.

(** X12. No request removes a text from the index: whatever the request
    and its outcome, also when indexing stops after some of its batches, the
    texts persisted before it are a prefix of the texts persisted after
    it. *)
Theorem request_never_removes_indexed_texts key question files (d : disk) :
  indexed_texts d `prefix_of` indexed_texts (snd (ask_question key question files d)).
Proof.
  rewrite ask_question_disk.
  destruct (get_pdf_text files) as [raw_text|e]; [|reflexivity].
  destruct (get_text_chunks raw_text) as [text_chunks|e]; [|reflexivity].
  destruct (get_vector_store text_chunks d) as [[vs|e] d1] eqn:Hindex.
  - destruct (Chroma_open_result "chroma_db" d1) as (_ & Hsame & _).
    unfold indexed_texts at 2. rewrite Hsame. fold (indexed_texts d1).
    rewrite (proj1 (get_vector_store_indexed _ _ _ _ Hindex)).
    now apply prefix_app_r.
  - destruct (get_vector_store_texts text_chunks d) as (k & Htexts & _).
    rewrite Hindex in Htexts. cbn [snd] in Htexts. rewrite Htexts.
    now apply prefix_app_r.
Qed.


(** X18. A request whose extraction stage raises is answered with the 400
    error and leaves the disk exactly as it was: nothing is indexed. *)
Theorem failed_extraction_leaves_disk key question files (d : disk) (e : Exception) :
  raises_at Extraction key question files d e ->
  ask_question key question files d
  = (RaiseHTTPException 400 ("Error processing question: " +:+ str e), d).
Proof.
  cbn [raises_at]. intros Hraise.
  unfold ask_question. rewrite ask_question_try_stages. unfold M_bind, call.
  now rewrite Hraise.
Qed.

Lemma get_vector_store_elsewhere (text_chunks : list string) (d : disk) (directory : string) :
  directory <> "chroma_db" ->
  snd (get_vector_store text_chunks d) !! directory = d !! directory.
Proof.
  intros Hne.
  destruct (get_vector_store text_chunks d) as [r d'] eqn:Hrun.
  apply get_vector_store_run in Hrun as (k & embeddings & _ & -> & _).
  cbn [snd]. unfold disk in *. now rewrite lookup_insert_ne by congruence.
Qed.

(** X14. A request touches no directory other than ["chroma_db"]. *)
Theorem request_touches_only_chroma_db key question files (d : disk) (directory : string) :
  directory <> "chroma_db" ->
  snd (ask_question key question files d) !! directory = d !! directory.
Proof.
  intros Hne. rewrite ask_question_disk.
  destruct (get_pdf_text files) as [raw_text|e]; [|reflexivity].
  destruct (get_text_chunks raw_text) as [text_chunks|e]; [|reflexivity].
  pose proof (get_vector_store_elsewhere text_chunks d directory Hne) as Hsame.
  destruct (get_vector_store text_chunks d) as [[vs|e] d1]; cbn [snd] in Hsame;
    [|assumption].
  destruct (Chroma_open_result "chroma_db" d1) as (_ & _ & Hother).
  now rewrite Hother.
Qed.

Lemma ask_question_status key question files (d : disk) :
  status_code (render (fst (ask_question key question files d))) = 200
  \/ status_code (render (fst (ask_question key question files d))) = 400.
Proof.
  unfold ask_question.
  destruct (ask_question_try key question files d) as [[value|e] d']; [left | right];
    reflexivity.
Qed.

(** X15. [POST /ask_question/] is answered with status 200, 400 or 422; it
    is 422 exactly when [user_question] or [pdf_files] does not bind (missing,
    empty question, no file, or a part of the wrong kind), and then the disk
    is untouched. *)
Theorem post_ask_question_statuses key (form : list (string * part UploadFile)) (d : disk) :
  let answer := post_ask_question key form d in
  (status_code (fst answer) = 200
   \/ status_code (fst answer) = 400
   \/ status_code (fst answer) = 422)
  /\ (status_code (fst answer) = 422
      <-> bind_user_question form = None \/ bind_pdf_files form = None)
  /\ (status_code (fst answer) = 422 -> snd answer = d).
Proof.
  cbn zeta. unfold post_ask_question.
  destruct (bind_user_question form) as [user_question|];
    [destruct (bind_pdf_files form) as [pdf_files|]|].
  - pose proof (ask_question_status key user_question pdf_files d) as Hstatus.
    destruct (ask_question key user_question pdf_files d) as [o d'].
    cbn [fst snd] in *.
    split; [tauto|].
    split; [|intros H422; destruct Hstatus as [Hs|Hs]; rewrite Hs in H422; discriminate].
    split; [intros H422; destruct Hstatus as [Hs|Hs]; rewrite Hs in H422; discriminate
           | intros [?|?]; discriminate].
  - cbn. split; [auto|]. split; [|reflexivity]. split; auto.
  - cbn. split; [auto|]. split; [|reflexivity]. split; auto.
Qed.
End MoreEndpointFacts.

Lemma ask_question_success_witness :
  render (fst (@ask_question sample "key" "Where is Paris?"
                 [Some ["Paris is "; "in France."]] ∅))
    = mkResponse 200 (JDict [("answer", JString "Where is Paris?")])
  /\ @indexed_texts sample
       (snd (@ask_question sample "key" "Where is Paris?"
               [Some ["Paris is "; "in France."]] ∅))
     = @indexed_texts sample ∅ ++ ["Paris is in France."].
Proof.
  refine (@ask_question_success sample "key" "Where is Paris?"
            [Some ["Paris is "; "in France."]] ∅
            (snd (@get_vector_store sample ["Paris is in France."] ∅))
            (snd (@get_vector_store sample ["Paris is in France."] ∅))
            "Paris is in France." ["Paris is in France."] (mkChroma "chroma_db")
            [mkDocument "Paris is in France."] tt
            [("output_text", "Where is Paris?")] "Where is Paris?" _ _ _ _ _ _ _);
    vm_compute; reflexivity.
Defined.

Lemma missing_output_text_is_a_400_witness :
  render (fst (@ask_question (sample_with (fun _ => Ok [("text", "Paris")]))
                 "key" "Where is Paris?" [Some ["Paris is in France."]] ∅))
  = mkResponse 400
      (JDict [("detail", JString "Error processing question: 'output_text'")]).
Proof.
  refine (@missing_output_text_is_a_400 (sample_with (fun _ => Ok [("text", "Paris")]))
            "key" "Where is Paris?" [Some ["Paris is in France."]] ∅
            (snd (@get_vector_store sample ["Paris is in France."] ∅))
            (snd (@get_vector_store sample ["Paris is in France."] ∅))
            "Paris is in France." ["Paris is in France."] (mkChroma "chroma_db")
            [mkDocument "Paris is in France."] tt [("text", "Paris")] _ _ _ _ _ _ _);
    try (vm_compute; reflexivity).
  repeat constructor. discriminate.
Defined.


(** The request of the lemma above, run: the first chunk of the two is in the
    index when the request has failed. *)
Lemma partly_indexed_request :
  @indexed_texts sample_small_batches
    (snd (@ask_question sample_small_batches "key" "Where is Paris?"
            [Some [two_paragraphs]] ∅))
  = [paragraph "a"].
Proof. vm_compute. reflexivity. Qed.

Lemma failed_extraction_leaves_disk_witness :
  @ask_question sample "key" "Where is Paris?" [None] ∅
  = (RaiseHTTPException 400
       ("Error processing question: "
        +:+ str (mkException "PdfReadError" "EOF marker not found")), ∅).
Proof.
  refine (@failed_extraction_leaves_disk sample "key" "Where is Paris?" [None] ∅
            (mkException "PdfReadError" "EOF marker not found") _).
  reflexivity.
Defined.

Lemma request_touches_only_chroma_db_witness :
  snd (@ask_question sample "key" "Where is Paris?" [Some ["Paris is in France."]]
         {["uploads" := [("kept", 4%nat)]]}) !! "uploads"
  = ({["uploads" := [("kept", 4%nat)]]} : gmap string (list (string * nat))) !! "uploads".
Proof.
  refine (@request_touches_only_chroma_db sample "key" "Where is Paris?"
            [Some ["Paris is in France."]] {["uploads" := [("kept", 4%nat)]]} "uploads" _).
  discriminate.
Defined.

(** ** More about the chunker *)

Section ShortText.
Variable self : RecursiveCharacterTextSplitter.

Lemma merge_step_fits (docs current_doc : list string) (d : string) :
  sum_len current_doc + len d <= chunk_size self ->
  merge_step self "" (docs, current_doc, sum_len current_doc) d
  = Ok (docs, current_doc ++ [d], sum_len (current_doc ++ [d])).
Proof.
  intros Hfit. unfold merge_step.
  replace (len "") with 0 by reflexivity.
  replace (if nonempty current_doc then 0 else 0) with 0
    by (now destruct (nonempty current_doc)).
  case_gtb. unfold_bind. cbv beta iota.
  replace (if more_than_one (current_doc ++ [d]) then 0 else 0) with 0
    by (now destruct (more_than_one _)).
  rewrite sum_len_app. cbn [sum_len foldr]. f_equal. f_equal. lia.
Qed.

Lemma merge_loop_fits (splits : list string) :
  forall docs current_doc,
    sum_len (current_doc ++ splits) <= chunk_size self ->
    for_each (merge_step self "") splits (docs, current_doc, sum_len current_doc)
    = Ok (docs, current_doc ++ splits, sum_len (current_doc ++ splits)).
Proof.
  induction splits as [|d splits IH]; intros docs cur Hfit.
  - now rewrite app_nil_r.
  - cbn [for_each].
    assert (Hd : sum_len cur + len d <= chunk_size self).
    { rewrite sum_len_app in Hfit. cbn [sum_len foldr] in Hfit.
      fold (sum_len splits) in Hfit. pose proof (sum_len_nonneg splits). lia. }
    rewrite (merge_step_fits _ _ _ Hd). cbn [rbind].
    replace (cur ++ d :: splits) with ((cur ++ [d]) ++ splits) by now rewrite <- app_assoc.
    apply IH. now rewrite <- app_assoc.
Qed.

Lemma good_pieces (recurse : option (string -> result (list string)))
  (splits final_chunks good : list string) :
  Forall (fun s => len s < chunk_size self) splits ->
  for_each (fun '(final_chunks, _good_splits) s =>
        if (len s <? chunk_size self)%Z then Ok (final_chunks, _good_splits ++ [s])
        else
          final_chunks ← extend_merged self final_chunks _good_splits;
          match recurse with
          | None => Ok (final_chunks ++ [s], [])
          | Some split_rest =>
              other_info ← split_rest s;
              Ok (final_chunks ++ other_info, [])
          end) splits (final_chunks, good)
  = Ok (final_chunks, good ++ splits).
Proof.
  intros Hsmall. revert good.
  induction Hsmall as [|s splits Hs _ IH]; intros good; cbn [for_each].
  - now rewrite app_nil_r.
  - destruct (Z.ltb_spec (len s) (chunk_size self)); [|lia].
    cbn [rbind]. rewrite IH. now rewrite <- app_assoc.
Qed.

Lemma split_pieces_short (recurse : option (string -> result (list string)))
  (separator text : string) :
  len text < chunk_size self ->
  split_pieces self recurse separator text
  = Ok (if String.eqb (strip text) "" then [] else [strip text]).
Proof.
  intros Hshort. unfold split_pieces.
  pose proof (split_text_with_regex_rejoin text separator) as Hjoin.
  set (pieces := split_text_with_regex text separator) in *.
  assert (Hsum : sum_len pieces = len text) by (now rewrite sum_len_concat_texts, Hjoin).
  rewrite (good_pieces recurse pieces [] []).
  2:{ eapply Forall_impl; [apply piece_le_sum|]. cbn. intros s Hs. lia. }
  unfold_bind. cbv beta iota. rewrite app_nil_l. unfold extend_merged.
  destruct (nonempty pieces) eqn:Hne.
  - unfold merge_splits.
    pose proof (merge_loop_fits pieces [] []) as Hloop.
    rewrite app_nil_l in Hloop. change (sum_len []) with 0 in Hloop.
    rewrite Hloop by lia.
    unfold_bind. cbv beta iota. rewrite ?app_nil_l. cbn [append_doc].
    unfold join_docs. rewrite concat_is_concat_texts, Hjoin.
    now destruct (String.eqb (strip text) "").
  - destruct pieces; [|discriminate]. cbn in Hjoin. subst text. reflexivity.
Qed.

Lemma split_text_rec_short (seps : list string) (last_separator text : string) :
  len text < chunk_size self ->
  split_text_rec self seps last_separator text
  = Ok (if String.eqb (strip text) "" then [] else [strip text]).
Proof.
  intros Hshort. induction seps as [|_s seps IH]; cbn [split_text_rec].
  - now apply split_pieces_short.
  - destruct (String.eqb _s ""); [now apply split_pieces_short|].
    destruct (contains _s text); [now apply split_pieces_short | exact IH].
Qed.
End ShortText.

(** X16. A text of fewer than 10000 characters is never cut: whatever
    separators it contains, [get_text_chunks] returns the stripped text as the
    only chunk, and no chunk at all when the text is empty or whitespace
    only. *)
Theorem short_text_is_one_stripped_chunk (text : string) :
  len text < 10000 ->
  get_text_chunks text = Ok (if String.eqb (strip text) "" then [] else [strip text]).
Proof.
  intros Hshort. unfold get_text_chunks, split_text. cbn [separators default_separators].
  now apply split_text_rec_short.
Qed.

Lemma short_text_is_one_stripped_chunk_witness :
  get_text_chunks (" The capital of France is Paris." +:+ String "010" "")
  = Ok ["The capital of France is Paris."].
Proof.
  refine (short_text_is_one_stripped_chunk _ _). reflexivity.
Defined.

Lemma rstrip_idempotent (s : string) : rstrip (rstrip s) = rstrip s.
Proof.
  induction s as [|c s IH]; [reflexivity|]. rewrite rstrip_cons.
  destruct (rstrip s) as [|c' kept] eqn:Hkept.
  - destruct (isspace c) eqn:Hc; [reflexivity|].
    rewrite rstrip_cons. cbn [rstrip]. now rewrite Hc.
  - rewrite rstrip_cons, IH. reflexivity.
Qed.

Lemma lstrip_fixed (c : ascii) (s : string) :
  isspace c = false -> lstrip (String c s) = String c s.
Proof. intros Hc. cbn [lstrip]. now rewrite Hc. Qed.

Lemma rstrip_keeps_head (c : ascii) (s : string) :
  isspace c = false -> exists kept, rstrip (String c s) = String c kept.
Proof.
  intros Hc. rewrite rstrip_cons. destruct (rstrip s) as [|c' kept]; [rewrite Hc|]; eauto.
Qed.

Lemma lstrip_head (s : string) :
  lstrip s = "" \/ exists c rest, lstrip s = String c rest /\ isspace c = false.
Proof.
  induction s as [|c s IH]; [now left|]. cbn [lstrip].
  destruct (isspace c) eqn:Hc; [exact IH | right; eauto].
Qed.

Lemma strip_idempotent (s : string) : strip (strip s) = strip s.
Proof.
  unfold strip. destruct (lstrip_head s) as [-> | (c & rest & -> & Hc)]; [reflexivity|].
  destruct (rstrip_keeps_head c rest Hc) as [kept Hkept].
  rewrite Hkept, (lstrip_fixed _ _ Hc), <- Hkept. apply rstrip_idempotent.
Qed.

Lemma join_docs_stripped (docs : list string) (doc : string) :
  join_docs docs "" = Some doc -> strip doc = doc.
Proof.
  unfold join_docs. destruct (String.eqb _ ""); [discriminate|].
  intros [= <-]. apply strip_idempotent.
Qed.

Section ChunkShape.
Variable self : RecursiveCharacterTextSplitter.
Variable P : string -> Prop.
Hypothesis Hjoin : forall docs doc, join_docs docs "" = Some doc -> P doc.
Hypothesis Hsize : 1 < chunk_size self.

Lemma append_doc_all (docs current_doc : list string) :
  Forall P docs -> Forall P (append_doc docs (join_docs current_doc "")).
Proof.
  intros Hdocs. unfold append_doc.
  destruct (join_docs current_doc "") as [doc|] eqn:Hdoc; [|assumption].
  apply Forall_app. split; [assumption|]. constructor; [eauto | constructor].
Qed.

Lemma merge_step_all (st st' : list string * list string * Z) (d : string) :
  merge_step self "" st d = Ok st' ->
  Forall P (fst (fst st)) -> Forall P (fst (fst st')).
Proof.
  destruct st as [[docs cur] total]. unfold merge_step. cbn [fst].
  destruct (_ >? _)%Z; [destruct (nonempty cur)|].
  - destruct (pop_front self _ _ cur total) as [[kept total']|e];
      unfold_bind; [|discriminate].
    intros [= <-] Hdocs. cbn [fst]. now apply append_doc_all.
  - unfold_bind. now intros [= <-].
  - unfold_bind. now intros [= <-].
Qed.

Lemma merge_loop_all (splits : list string) :
  forall st st',
    for_each (merge_step self "") splits st = Ok st' ->
    Forall P (fst (fst st)) -> Forall P (fst (fst st')).
Proof.
  induction splits as [|d splits IH]; intros st st'; cbn [for_each].
  - now intros [= <-].
  - destruct (merge_step self "" st d) as [st1|e] eqn:Hstep; cbn [rbind]; [|discriminate].
    intros Hrest Hdocs. apply (IH _ _ Hrest). now apply (merge_step_all _ _ _ Hstep).
Qed.

Lemma merge_splits_all (splits docs : list string) :
  merge_splits self splits "" = Ok docs -> Forall P docs.
Proof.
  unfold merge_splits.
  destruct (for_each (merge_step self "") splits ([], [], 0)) as [[[ds cur] total]|e] eqn:Hloop;
    unfold_bind; [|discriminate].
  intros [= <-]. apply append_doc_all.
  apply (merge_loop_all _ _ _ Hloop). constructor.
Qed.

Lemma extend_merged_all (final_chunks good chunks : list string) :
  extend_merged self final_chunks good = Ok chunks ->
  Forall P final_chunks -> Forall P chunks.
Proof.
  unfold extend_merged. destruct (nonempty good); [|now intros [= <-]].
  destruct (merge_splits self good "") as [merged|e] eqn:Hmerge; unfold_bind; [|discriminate].
  intros [= <-] Hfinal. apply Forall_app. split; [assumption|].
  now apply (merge_splits_all _ _ Hmerge).
Qed.

Lemma split_loop_all (recurse : option (string -> result (list string)))
  (splits : list string) :
  match recurse with
  | Some split_rest => forall s chunks, split_rest s = Ok chunks -> Forall P chunks
  | None => Forall (fun s => len s < chunk_size self) splits
  end ->
  forall st st',
    for_each (fun '(final_chunks, _good_splits) s =>
      if (len s <? chunk_size self)%Z then Ok (final_chunks, _good_splits ++ [s])
      else
        final_chunks ← extend_merged self final_chunks _good_splits;
        match recurse with
        | None => Ok (final_chunks ++ [s], [])
        | Some split_rest =>
            other_info ← split_rest s;
            Ok (final_chunks ++ other_info, [])
        end) splits st = Ok st' ->
    Forall P (fst st) -> Forall P (fst st').
Proof.
  induction splits as [|s splits IH]; intros Hrec st st'; cbn [for_each].
  - now intros [= <-].
  - assert (Hrec' : match recurse with
                    | Some split_rest =>
                        forall s chunks, split_rest s = Ok chunks -> Forall P chunks
                    | None => Forall (fun s => len s < chunk_size self) splits
                    end).
    { destruct recurse; [exact Hrec | now apply Forall_cons in Hrec as [_ ?]]. }
    destruct st as [final good].
    destruct (Z.ltb_spec (len s) (chunk_size self)) as [Hsmall|Hbig].
    + cbn [rbind]. intros Hrest Hfinal. now apply (IH Hrec' _ _ Hrest).
    + destruct (extend_merged self final good) as [merged|e] eqn:Hmerge;
        unfold_bind; [|discriminate].
      destruct recurse as [split_rest|].
      * destruct (split_rest s) as [other|e] eqn:Hother; [|discriminate].
        intros Hrest Hfinal. apply (IH Hrec' _ _ Hrest). cbn [fst].
        apply Forall_app. split;
          [now apply (extend_merged_all _ _ _ Hmerge) | now apply (Hrec s)].
      * apply Forall_cons in Hrec as [Hs _]. lia.
Qed.

Lemma split_pieces_all (recurse : option (string -> result (list string)))
  (separator text : string) (chunks : list string) :
  match recurse with
  | Some split_rest => forall s chunks, split_rest s = Ok chunks -> Forall P chunks
  | None => Forall (fun s => len s < chunk_size self) (split_text_with_regex text separator)
  end ->
  split_pieces self recurse separator text = Ok chunks -> Forall P chunks.
Proof.
  intros Hrec. unfold split_pieces.
  match goal with
  | |- context [for_each ?body ?splits ?init] =>
      destruct (for_each body splits init) as [[final good]|e] eqn:Hloop
  end; unfold_bind; [|discriminate].
  cbv beta iota. intros Hmerge. apply (extend_merged_all _ _ _ Hmerge).
  apply (split_loop_all recurse _ Hrec _ _ Hloop). constructor.
Qed.

Lemma split_text_rec_all (seps : list string) (last_separator : string) :
  "" ∈ seps ->
  forall text chunks,
    split_text_rec self seps last_separator text = Ok chunks -> Forall P chunks.
Proof.
  induction seps as [|_s rest IH]; intros Hin text chunks; [now apply elem_of_nil in Hin|].
  cbn [split_text_rec].
  destruct (String.eqb_spec _s "") as [->|Hne].
  - apply split_pieces_all. rewrite split_chars. clear -Hsize.
    apply Forall_fmap, Forall_forall. intros c _. unfold len, single. simpl. lia.
  - apply elem_of_cons in Hin as [Heq|Hin]; [congruence|].
    destruct (contains _s text); [|now apply IH].
    apply split_pieces_all.
    destruct rest as [|s' rest']; [now apply elem_of_nil in Hin|].
    cbn [nonempty]. intros s. now apply IH.
Qed.
End ChunkShape.

(** X17. For every text, no chunk of [get_text_chunks] starts or ends with
    a whitespace character: stripping a chunk again changes nothing. *)
Theorem chunks_carry_no_outer_whitespace (text : string) :
  exists chunks,
    get_text_chunks text = Ok chunks
    /\ Forall (fun chunk => strip chunk = chunk) chunks.
Proof.
  destruct (get_text_chunks_within text) as (chunks & Hrun & _).
  exists chunks. split; [assumption|].
  unfold get_text_chunks, split_text in Hrun. cbn [separators default_separators] in Hrun.
  refine (split_text_rec_all _ _ join_docs_stripped _ _ _ _ text chunks Hrun).
  - cbn. lia.
  - set_solver.
Qed.
